(** * QueryEngine/TableFunctions/TableFunctionExecutionContext.cpp

    A shallow embedding of the table-function execution context: the
    literal packer [create_literal_buffer], the output sizing
    [get_output_row_count], the input marshaling of [execute], and the two
    launchers [launchCpuCode] and [launchGpuCode].

    Conventions.
    - Machine integers are [Z] with the wrap-around written out
      ([to_size_t], [to_ssize_t], [to_int64], [to_int32]).
    - Memory is bytes ([Z] in [0,256)), little endian, as on the x86-64 and
      CUDA targets of the engine.
    - The function body threads one [state] (the per-invocation owners and
      the allocations made so far) through an error monad; a failure keeps
      the state reached, so what was allocated before it can be inspected. *)

From Stdlib Require Import ZArith List Bool Lia.
Import ListNotations.
Open Scope Z_scope.

(* ================================================================== *)
(** ** Machine integers *)

Module MachineInt.

Definition to_unsigned (bits v : Z) : Z := v mod 2 ^ bits.

Definition to_signed (bits v : Z) : Z :=
  let u := v mod 2 ^ bits in
  if u <? 2 ^ (bits - 1) then u else u - 2 ^ bits.

(** [static_cast<size_t>], [static_cast<ssize_t>] and the implicit
    conversions to [int64_t] and [int32_t]. *)
Definition to_size_t : Z -> Z := to_unsigned 64.
Definition to_ssize_t : Z -> Z := to_signed 64.
Definition to_int64 : Z -> Z := to_signed 64.
Definition to_int32 : Z -> Z := to_signed 32.

Definition size_t_range (v : Z) : Prop := 0 <= v < 2 ^ 64.
Definition ssize_t_range (v : Z) : Prop := - 2 ^ 63 <= v < 2 ^ 63.

End MachineInt.
Import MachineInt.

(* ================================================================== *)
(** ** Bytes *)

Module Bytes.

(** Object representation of a scalar occupying [n] bytes (two's
    complement for integers, the IEEE-754 encoding for floating point). *)
Fixpoint object_bytes (n : nat) (v : Z) : list Z :=
  match n with
  | O => []
  | S k => v mod 256 :: object_bytes k (v / 256)
  end.

Fixpoint bytes_value (bs : list Z) : Z :=
  match bs with
  | [] => 0
  | b :: rest => b + 256 * bytes_value rest
  end.

(** [std::memcpy(dst, src, n)]: the first [n] bytes of [dst] are replaced
    by the first [n] bytes of [src]; the rest of [dst] is not touched. *)
Definition memcpy (dst src : list Z) (n : nat) : list Z :=
  firstn n src ++ skipn n dst.

(** [std::make_unique<char[]>(n)] value-initialises the array. *)
Definition make_unique_chars (n : nat) : list Z := repeat 0 n.

End Bytes.
Import Bytes.

(* ================================================================== *)
(** ** Data model *)

Inductive ExecutorDeviceType := CPU | GPU.

Inductive MemoryLevel := CPU_LEVEL | GPU_LEVEL.

Definition memory_level_of (device_type : ExecutorDeviceType) : MemoryLevel :=
  match device_type with CPU => CPU_LEVEL | GPU => GPU_LEVEL end.

(** The instantiations of [template <typename T>] made by [execute]. *)
Inductive scalar_type :=
| t_int8 | t_int16 | t_int32 | t_int64 | t_float | t_double.

Definition sizeof (T : scalar_type) : nat :=
  match T with
  | t_int8 => 1 | t_int16 => 2 | t_int32 => 4 | t_int64 => 8
  | t_float => 4 | t_double => 8
  end%nat.

Definition sizeof_int64_t : nat := 8.

Definition is_floating (T : scalar_type) : bool :=
  match T with t_float | t_double => true | _ => false end.

(** A value of type [T]: an integer is its signed value, a floating-point
    number is its bit pattern. *)
Definition literal_in_range (T : scalar_type) (v : Z) : Prop :=
  if is_floating T
  then 0 <= v < 2 ^ (8 * Z.of_nat (sizeof T))
  else - 2 ^ (8 * Z.of_nat (sizeof T) - 1) <= v < 2 ^ (8 * Z.of_nat (sizeof T) - 1).

(** Reading a [T] back from its object representation. *)
Definition literal_of_bytes (T : scalar_type) (bs : list Z) : Z :=
  if is_floating T
  then bytes_value bs
  else to_signed (8 * Z.of_nat (sizeof T)) (bytes_value bs).

(** [Datum] is a union: its members share one 8-byte storage. *)
Record Datum := mkDatum { datum_storage : Z }.

Definition tinyintval (d : Datum) : Z := to_signed 8 (datum_storage d).
Definition smallintval (d : Datum) : Z := to_signed 16 (datum_storage d).
Definition intval (d : Datum) : Z := to_signed 32 (datum_storage d).
Definition bigintval (d : Datum) : Z := to_signed 64 (datum_storage d).
Definition floatval (d : Datum) : Z := to_unsigned 32 (datum_storage d).
Definition doubleval (d : Datum) : Z := to_unsigned 64 (datum_storage d).

(** What [execute] asks of a constant's [SQLTypeInfo]: [ti.is_fp()],
    [ti.is_integer()] and [get_bit_width(ti)].  The type itself is declared
    outside this file and is taken as these three observations. *)
Record SQLTypeInfo := mkTypeInfo {
  is_fp : bool;
  is_integer : bool;
  get_bit_width : Z
}.

(** [Analyzer::Expr] as [execute] sees it through its two
    [dynamic_cast]s: a [ColumnVar], a [Constant], or anything else. *)
Inductive Expr :=
| ColumnVar (column : nat)
| Constant (type_info : SQLTypeInfo) (constval : Datum)
| OtherExpr.

(** Modelled from the spec: the declaration of [TableFunctionExecutionUnit]
    is in a header that is not part of this file.  The spec (section 3)
    gives it ordered input expressions, ordered output target expressions
    and an optional row multiplier; the code dereferences the multiplier
    with unary [*] and stores its product with a [size_t] in a [size_t], so
    the payload is a [size_t].  An optional keeps the storage of its
    payload whether or not it holds a value: [disengaged_multiplier] is
    what that storage holds while [output_buffer_multiplier] is absent. *)
Record TableFunctionExecutionUnit := mkExeUnit {
  input_exprs : list Expr;
  target_exprs : list nat;
  output_buffer_multiplier : option Z;
  disengaged_multiplier : Z
}.

Inductive int8_ptr :=
| chunk_buffer (column : nat) (level : MemoryLevel)
| host_literal (slot : nat)
| device_buffer (handle : nat).

(** A buffer handed out by a [CudaAllocator]. *)
Inductive device_cell :=
| DeviceBytes (bytes : list Z)
| DevicePointers (ptrs : list int8_ptr)
| DeviceOutputBuffers (col_slots : list (Z * Z)) (rows : Z).

(** Modelled from the spec: the result set class is declared outside this
    file.  The spec (section 3, Result) describes an output storage object
    bound to the output layout whose authoritative row count is updated in
    place; the record keeps the layout, the row count the storage was
    allocated with and the current row count. *)
Record ResultSet := mkResultSet {
  rs_device : ExecutorDeviceType;
  rs_col_slots : list (Z * Z);
  rs_allocated_rows : Z;
  rs_entry_count : Z
}.

(** Modelled from the spec: [ResultSet::updateStorageEntryCount], which
    sets the authoritative row count (section 4.4, step 5); its parameter
    is taken to be a [size_t]. *)
Definition updateStorageEntryCount (rs : ResultSet) (new_entry_count : Z) : ResultSet :=
  mkResultSet (rs_device rs) (rs_col_slots rs) (rs_allocated_rows rs)
              (to_size_t new_entry_count).

(** The compiled code, an opaque collaborator.  Both entry points are
    given the marshaled input buffers, the input row count and the value
    the output-row-count cell holds before the call; they give back a
    status (the [int32_t] return code on CPU, the driver's [CUresult] on
    GPU) and the value the cell holds afterwards. *)
Definition table_function := list int8_ptr -> Z -> Z -> Z * Z.

Record TableFunctionCompilationContext := mkCompilationContext {
  getFuncPtr : table_function;
  getGpuCode : option table_function
}.

(** The collaborators reached through [Executor*] and the build
    configuration: the column fetcher's answer for a column
    ([buf_elem_count], a [size_t]; the fetch itself is taken to succeed),
    the bytes a fresh device allocation happens to hold, whether the
    build has [HAVE_CUDA], and whether the pointer
    [QueryMemoryInitializer::getGroupByBuffersPtr()] gives back is
    non-null. *)
Record Executor := mkExecutor {
  getOneColumnFragment : nat -> MemoryLevel -> Z;
  device_garbage : nat -> nat -> Z;
  HAVE_CUDA : bool;
  getGroupByBuffersPtr : bool
}.

(* ================================================================== *)
(** ** Failures *)

(** [throw std::runtime_error(...)], by throw site, under the names the
    specification gives them. *)
Inductive runtime_error :=
| UnsupportedOutputPolicy
    (* get_output_row_count: "Only row multiplier output buffer
       configuration is supported for table functions." *)
| UnsupportedLiteralType (constant : Datum)
    (* execute: "Literal value ... is not yet supported." *)
| TableFunctionExecutionError (err : Z)
    (* launchCpuCode: "Error executing table function: " + err *)
| OutputCardinalityNotSet.
    (* launchCpuCode: "Table function did not properly set output row
       count." *)

(** A failed [CHECK] (fatal), by site. *)
Inductive check_site :=
| LiteralWiderThanSlot
    (* create_literal_buffer: CHECK_LE(sizeof(T), sizeof(int64_t)) *)
| NullGpuAllocator
    (* create_literal_buffer: CHECK(gpu_allocator) *)
| NullCompilationContext
    (* execute: CHECK(compilation_context) *)
| InconsistentInputCardinality
    (* execute: CHECK_EQ(static_cast<ssize_t>(buf_elem_count), element_count) *)
| BufferCountMismatch
    (* execute: CHECK_EQ(col_buf_ptrs.size(), exe_unit.input_exprs.size()) *)
| NoColumnInputs
    (* execute: CHECK_GE(element_count, ssize_t(0)) *)
| NullByteStream
    (* launchCpuCode: CHECK(byte_stream_ptr) *)
| NullGroupByBuffers
    (* launchCpuCode, launchGpuCode: CHECK(group_by_buffers_ptr) *)
| KernelParamCount
    (* launchGpuCode: CHECK_EQ(KERNEL_PARAM_COUNT, kernel_params.size()) *)
| NullGpuContext
    (* launchGpuCode: CHECK(gpu_context) *)
| KernelLaunchError (cu_result : Z).
    (* launchGpuCode: checkCudaErrors(cuLaunchKernel(...)) *)

(** How an invocation stops short of returning: an exception, a failed
    check, or [UNREACHABLE()]. *)
Inductive stop :=
| Thrown (e : runtime_error)
| CheckFailed (site : check_site)
| Unreachable.

(** A failure the caller can catch and report, as opposed to a fatal
    internal one. *)
Definition user_facing (s : stop) : bool :=
  match s with Thrown _ => true | _ => false end.

(* ================================================================== *)
(** ** The state of one invocation and its monad *)

(** [literals_owner] and [chunks_owner] are the owners declared in
    [execute]; [device_memory] lists the buffers handed out by the
    invocation's [CudaAllocator]s; [output_storage] lists the output
    allocations made (device and row count), [launches] the calls of the
    compiled code. *)
Record state := mkState {
  literals_owner : list (list Z);
  device_memory : list device_cell;
  chunks_owner : list nat;
  output_storage : list (ExecutorDeviceType * Z);
  launches : list ExecutorDeviceType
}.

Definition initial_state : state := mkState [] [] [] [] [].

Definition M (A : Type) : Type := state -> (stop + A) * state.

Definition ret {A} (a : A) : M A := fun st => (inr a, st).

Definition fail {A} (s : stop) : M A := fun st => (inl s, st).

Definition bind {A B} (m : M A) (k : A -> M B) : M B :=
  fun st =>
    match m st with
    | (inl s, st') => (inl s, st')
    | (inr a, st') => k a st'
    end.

Declare Scope exec_scope.
Delimit Scope exec_scope with exec.
Notation "x <- m ;; k" := (bind m (fun x => k))
  (at level 61, m at next level, right associativity) : exec_scope.
Notation "m ;;; k" := (bind m (fun _ => k))
  (at level 61, right associativity) : exec_scope.
Open Scope exec_scope.

Definition CHECK (b : bool) (site : check_site) : M unit :=
  if b then ret tt else fail (CheckFailed site).

Definition throw {A} (e : runtime_error) : M A := fail (Thrown e).

Definition UNREACHABLE {A} : M A := fail Unreachable.

(** [literals_owner.emplace_back(std::make_unique<char[]>(n))]. *)
Definition emplace_back_literal (n : nat) : M nat :=
  fun st =>
    (inr (length (literals_owner st)),
     mkState (literals_owner st ++ [make_unique_chars n]) (device_memory st)
             (chunks_owner st) (output_storage st) (launches st)).

Definition write_literal (slot : nat) (src : list Z) (n : nat) : M unit :=
  fun st =>
    (inr tt,
     mkState (map (fun '(i, b) => if Nat.eqb i slot then memcpy b src n else b)
                  (combine (seq 0 (length (literals_owner st))) (literals_owner st)))
             (device_memory st) (chunks_owner st) (output_storage st) (launches st)).

(** What the [n] bytes of the device allocation number [handle] hold
    before anything is copied into them. *)
Definition uninitialized (executor : Executor) (handle n : nat) : list Z :=
  map (fun i => device_garbage executor handle i mod 256) (seq 0 n).

(** [CudaAllocator::alloc(n)]: a fresh device buffer; its contents are
    whatever the device memory held. *)
Definition cuda_alloc (executor : Executor) (n : nat) : M nat :=
  fun st =>
    let handle := length (device_memory st) in
    (inr handle,
     mkState (literals_owner st)
             (device_memory st ++ [DeviceBytes (uninitialized executor handle n)])
             (chunks_owner st) (output_storage st) (launches st)).

Definition update_cell (handle : nat) (f : device_cell -> device_cell) : M unit :=
  fun st =>
    (inr tt,
     mkState (literals_owner st)
             (map (fun '(i, c) => if Nat.eqb i handle then f c else c)
                  (combine (seq 0 (length (device_memory st))) (device_memory st)))
             (chunks_owner st) (output_storage st) (launches st)).

(** [CudaAllocator::copyToDevice(dst, src, n)] of raw bytes. *)
Definition copyToDevice (handle : nat) (src : list Z) (n : nat) : M unit :=
  update_cell handle
    (fun c => match c with
              | DeviceBytes b => DeviceBytes (memcpy b src n)
              | _ => DeviceBytes (firstn n src)
              end).

(** [copyToDevice] of the array of marshaled pointers. *)
Definition copyPointersToDevice (handle : nat) (ptrs : list int8_ptr) : M unit :=
  update_cell handle (fun _ => DevicePointers ptrs).

Definition own_chunk (column : nat) : M unit :=
  fun st =>
    (inr tt,
     mkState (literals_owner st) (device_memory st) (chunks_owner st ++ [column])
             (output_storage st) (launches st)).

(** Modelled from the spec: the [QueryMemoryInitializer] class is declared
    outside this file.  Constructing it allocates the output storage,
    sized to the allocated row count, on [device_type] (sections 4.4 and
    4.5, steps 1 and 2); [getResultSet(0)] is the result bound to it. *)
Definition QueryMemoryInitializer (device_type : ExecutorDeviceType)
    (col_slots : list (Z * Z)) (rows : Z) : M ResultSet :=
  fun st =>
    (inr (mkResultSet device_type col_slots rows rows),
     mkState (literals_owner st) (device_memory st) (chunks_owner st)
             (output_storage st ++ [(device_type, rows)]) (launches st)).

Definition record_launch (device_type : ExecutorDeviceType) : M unit :=
  fun st =>
    (inr tt,
     mkState (literals_owner st) (device_memory st) (chunks_owner st)
             (output_storage st) (launches st ++ [device_type])).

(** The bytes a marshaled literal pointer refers to. *)
Definition pointee (st : state) (p : int8_ptr) : list Z :=
  match p with
  | host_literal slot => nth slot (literals_owner st) []
  | device_buffer handle =>
      match nth handle (device_memory st) (DeviceBytes []) with
      | DeviceBytes b => b
      | _ => []
      end
  | chunk_buffer _ _ => []
  end.

(* ================================================================== *)
(** ** create_literal_buffer *)

Definition create_literal_buffer (T : scalar_type) (literal : Z)
    (device_type : ExecutorDeviceType) (executor : Executor)
    (gpu_allocator : bool) : M int8_ptr :=
  CHECK (Nat.leb (sizeof T) sizeof_int64_t) LiteralWiderThanSlot ;;;
  match device_type with
  | CPU =>
      slot <- emplace_back_literal sizeof_int64_t ;;
      write_literal slot (object_bytes (sizeof T) literal) (sizeof T) ;;;
      ret (host_literal slot)
  | GPU =>
      CHECK gpu_allocator NullGpuAllocator ;;;
      gpu_literal_buf_ptr <- cuda_alloc executor sizeof_int64_t ;;
      copyToDevice gpu_literal_buf_ptr (object_bytes (sizeof T) literal) (sizeof T) ;;;
      ret (device_buffer gpu_literal_buf_ptr)
  end.

(** The 8-byte slot as the allocation hands it over, before the
    literal is copied in. *)
Definition fresh_slot (device_type : ExecutorDeviceType) (executor : Executor)
    (st : state) : list Z :=
  match device_type with
  | CPU => make_unique_chars sizeof_int64_t
  | GPU => uninitialized executor (length (device_memory st)) sizeof_int64_t
  end.

(* ================================================================== *)
(** ** get_output_row_count *)

(** [*o] on an optional: no question is asked whether it holds a value.
    With a value it gives the value; without one it reads the storage as
    it is (formally undefined behaviour; this is what the compiled code
    does). *)
Definition dereference (o : option Z) (storage : Z) : Z :=
  match o with
  | Some v => v
  | None => storage
  end.

Definition get_output_row_count (exe_unit : TableFunctionExecutionUnit)
    (input_element_count : Z) : M Z :=
  let multiplier :=
    dereference (output_buffer_multiplier exe_unit) (disengaged_multiplier exe_unit) in
  if negb (multiplier =? 0)
  then ret (to_size_t (multiplier * input_element_count))
  else throw UnsupportedOutputPolicy.

(* ================================================================== *)
(** ** execute: marshaling the inputs *)

(** The [Constant] branch of the loop body: dispatch on category and bit
    width, then pack. *)
Definition marshal_constant (ti : SQLTypeInfo) (const_val_datum : Datum)
    (device_type : ExecutorDeviceType) (executor : Executor)
    (device_allocator : bool) : M int8_ptr :=
  let pack T v := create_literal_buffer T v device_type executor device_allocator in
  if is_fp ti then
    if get_bit_width ti =? 32 then pack t_float (floatval const_val_datum)
    else if get_bit_width ti =? 64 then pack t_double (doubleval const_val_datum)
    else UNREACHABLE
  else if is_integer ti then
    if get_bit_width ti =? 8 then pack t_int8 (tinyintval const_val_datum)
    else if get_bit_width ti =? 16 then pack t_int16 (smallintval const_val_datum)
    else if get_bit_width ti =? 32 then pack t_int32 (intval const_val_datum)
    else if get_bit_width ti =? 64 then pack t_int64 (bigintval const_val_datum)
    else UNREACHABLE
  else throw (UnsupportedLiteralType const_val_datum).

(** One iteration of [for (const auto& input_expr : exe_unit.input_exprs)];
    the loop state is [col_buf_ptrs] and [element_count]. *)
Definition marshal_input (device_type : ExecutorDeviceType) (executor : Executor)
    (device_allocator : bool) (loop : list int8_ptr * Z) (input_expr : Expr)
    : M (list int8_ptr * Z) :=
  let '(col_buf_ptrs, element_count) := loop in
  match input_expr with
  | ColumnVar col_var =>
      let level := memory_level_of device_type in
      let buf_elem_count := getOneColumnFragment executor col_var level in
      own_chunk col_var ;;;
      element_count' <-
        (if element_count <? 0
         then ret (to_ssize_t buf_elem_count)
         else CHECK (to_ssize_t buf_elem_count =? element_count)
                    InconsistentInputCardinality ;;;
              ret element_count) ;;
      ret (col_buf_ptrs ++ [chunk_buffer col_var level], element_count')
  | Constant ti const_val_datum =>
      p <- marshal_constant ti const_val_datum device_type executor device_allocator ;;
      ret (col_buf_ptrs ++ [p], element_count)
  | OtherExpr => ret (col_buf_ptrs, element_count)
  end.

Fixpoint marshal_inputs (device_type : ExecutorDeviceType) (executor : Executor)
    (device_allocator : bool) (exprs : list Expr) (loop : list int8_ptr * Z)
    : M (list int8_ptr * Z) :=
  match exprs with
  | [] => ret loop
  | input_expr :: rest =>
      loop' <- marshal_input device_type executor device_allocator loop input_expr ;;
      marshal_inputs device_type executor device_allocator rest loop'
  end.

(* ================================================================== *)
(** ** launchCpuCode *)

(** All outputs padded to 8 bytes: one [(8, 8)] slot per target. *)
Definition output_col_slots (exe_unit : TableFunctionExecutionUnit) : list (Z * Z) :=
  map (fun _ => (8, 8)) (target_exprs exe_unit).

Definition is_empty {A} (l : list A) : bool :=
  match l with [] => true | _ => false end.

Definition launchCpuCode (exe_unit : TableFunctionExecutionUnit)
    (compilation_context : TableFunctionCompilationContext)
    (col_buf_ptrs : list int8_ptr) (elem_count : Z) (executor : Executor)
    : M ResultSet :=
  (* byte_stream_ptr is col_buf_ptrs.data(), null for an empty vector *)
  CHECK (negb (is_empty col_buf_ptrs)) NullByteStream ;;;
  let col_slots := output_col_slots exe_unit in
  allocated_output_row_count <- get_output_row_count exe_unit elem_count ;;
  query_buffers <- QueryMemoryInitializer CPU col_slots allocated_output_row_count ;;
  let output_row_count := -1 in
  CHECK (getGroupByBuffersPtr executor) NullGroupByBuffers ;;;
  let kernel_element_count := to_int64 elem_count in
  record_launch CPU ;;;
  let '(err, output_row_count) :=
    getFuncPtr compilation_context col_buf_ptrs kernel_element_count output_row_count in
  let err := to_int32 err in
  let output_row_count := to_int64 output_row_count in
  if negb (err =? 0) then throw (TableFunctionExecutionError err)
  else if output_row_count <? 0 then throw OutputCardinalityNotSet
  else ret (updateStorageEntryCount query_buffers output_row_count).

(* ================================================================== *)
(** ** launchGpuCode *)

Definition ERROR_BUFFER : nat := 0.
Definition COL_BUFFERS : nat := 1.
Definition INPUT_ROW_COUNT : nat := 2.
Definition OUTPUT_BUFFERS : nat := 3.
Definition OUTPUT_ROW_COUNT : nat := 4.
Definition KERNEL_PARAM_COUNT : nat := 5.

(** [kernel_params[i] = v]. *)
Fixpoint set_param (params : list nat) (i : nat) (v : nat) : list nat :=
  match params, i with
  | [], _ => []
  | _ :: rest, O => v :: rest
  | p :: rest, S j => p :: set_param rest j v
  end.

(** Modelled from the spec: [setupTableFunctionGpuBuffers], a method of
    the same class, allocates the device-resident output buffers (section
    4.5, step 2). *)
Definition setupTableFunctionGpuBuffers (col_slots : list (Z * Z)) (rows : Z) : M nat :=
  fun st =>
    (inr (length (device_memory st)),
     mkState (literals_owner st)
             (device_memory st ++ [DeviceOutputBuffers col_slots rows])
             (chunks_owner st) (output_storage st) (launches st)).

Definition launchGpuCode (exe_unit : TableFunctionExecutionUnit)
    (compilation_context : TableFunctionCompilationContext)
    (col_buf_ptrs : list int8_ptr) (elem_count : Z) (device_id : Z)
    (executor : Executor) : M ResultSet :=
  if negb (HAVE_CUDA executor) then UNREACHABLE else
  (* gpu_allocator is freshly made, CHECK(gpu_allocator) holds *)
  let kernel_params := repeat O KERNEL_PARAM_COUNT in
  byte_stream_ptr <- cuda_alloc executor (length col_buf_ptrs * sizeof_int64_t) ;;
  copyPointersToDevice byte_stream_ptr col_buf_ptrs ;;;
  let kernel_params := set_param kernel_params COL_BUFFERS byte_stream_ptr in
  input_row_count_ptr <- cuda_alloc executor 8 ;;
  let kernel_params := set_param kernel_params INPUT_ROW_COUNT input_row_count_ptr in
  copyToDevice input_row_count_ptr (object_bytes 8 elem_count) 8 ;;;
  error_buffer <- cuda_alloc executor 4 ;;
  let kernel_params := set_param kernel_params ERROR_BUFFER error_buffer in
  let col_slots := output_col_slots exe_unit in
  allocated_output_row_count <- get_output_row_count exe_unit elem_count ;;
  query_buffers <- QueryMemoryInitializer GPU col_slots allocated_output_row_count ;;
  let output_row_count := -1 in
  output_row_count_ptr <- cuda_alloc executor 8 ;;
  let kernel_params := set_param kernel_params OUTPUT_ROW_COUNT output_row_count_ptr in
  copyToDevice output_row_count_ptr (object_bytes 8 output_row_count) 8 ;;;
  CHECK (getGroupByBuffersPtr executor) NullGroupByBuffers ;;;
  gpu_output_buffers <- setupTableFunctionGpuBuffers col_slots allocated_output_row_count ;;
  let kernel_params := set_param kernel_params OUTPUT_BUFFERS gpu_output_buffers in
  CHECK (Nat.eqb KERNEL_PARAM_COUNT (length kernel_params)) KernelParamCount ;;;
  match getGpuCode compilation_context with
  | None => fail (CheckFailed NullGpuContext)
  | Some cu_func =>
      record_launch GPU ;;;
      let '(cu_result, device_row_count) :=
        cu_func col_buf_ptrs elem_count output_row_count in
      (* checkCudaErrors *)
      CHECK (cu_result =? 0) (KernelLaunchError cu_result) ;;;
      (* what the kernel left in the output-row-count cell *)
      copyToDevice output_row_count_ptr (object_bytes 8 device_row_count) 8 ;;;
      (* read output row count from GPU *)
      let new_output_row_count := to_int64 device_row_count in
      let new_output_row_count :=
        if new_output_row_count <? 0
        then to_int64 allocated_output_row_count
        else new_output_row_count in
      ret (updateStorageEntryCount query_buffers new_output_row_count)
  end.

(* ================================================================== *)
(** ** execute *)

(** [device_allocator] is reset to a [CudaAllocator] on GPU and stays
    null on CPU. *)
Definition device_allocator_for (device_type : ExecutorDeviceType) : bool :=
  match device_type with GPU => true | CPU => false end.

Definition execute (exe_unit : TableFunctionExecutionUnit)
    (compilation_context : option TableFunctionCompilationContext)
    (device_type : ExecutorDeviceType) (executor : Executor) : M ResultSet :=
  match compilation_context with
  | None => fail (CheckFailed NullCompilationContext)
  | Some compilation_context =>
      let device_allocator := device_allocator_for device_type in
      let col_buf_ptrs := [] in
      let element_count := -1 in
      marshaled <-
        marshal_inputs device_type executor device_allocator
                       (input_exprs exe_unit) (col_buf_ptrs, element_count) ;;
      let '(col_buf_ptrs, element_count) := marshaled in
      CHECK (Nat.eqb (length col_buf_ptrs) (length (input_exprs exe_unit)))
            BufferCountMismatch ;;;
      CHECK (element_count >=? 0) NoColumnInputs ;;;
      match device_type with
      | CPU =>
          launchCpuCode exe_unit compilation_context col_buf_ptrs
                        (to_size_t element_count) executor
      | GPU =>
          launchGpuCode exe_unit compilation_context col_buf_ptrs
                        (to_size_t element_count) 0 executor
      end
  end.

Definition run {A} (m : M A) : (stop + A) * state := m initial_state.

(* ================================================================== *)
(** ** Observations on a run *)

(** The compiled code was called during [m]. *)
Definition invoked {A} (m : M A) (st : state) : bool :=
  Nat.ltb (length (launches st)) (length (launches (snd (m st)))).

(** The value the output-row-count cell holds after the compiled code
    has run on [col_buf_ptrs] and [elem_count]: the out-parameter on CPU,
    the device cell read back on GPU. *)
Definition reported_row_count (compilation_context : TableFunctionCompilationContext)
    (device_type : ExecutorDeviceType) (col_buf_ptrs : list int8_ptr)
    (elem_count : Z) : Z :=
  match device_type with
  | CPU => to_int64 (snd (getFuncPtr compilation_context col_buf_ptrs
                                     (to_int64 elem_count) (-1)))
  | GPU =>
      match getGpuCode compilation_context with
      | Some cu_func => to_int64 (snd (cu_func col_buf_ptrs elem_count (-1)))
      | None => -1
      end
  end.

(** The state the CPU launcher leaves once it has called the function. *)
Definition after_cpu_launch (st : state) (allocated : Z) : state :=
  mkState (literals_owner st) (device_memory st) (chunks_owner st)
          (output_storage st ++ [(CPU, allocated)]) (launches st ++ [CPU]).

(** The state the CPU launcher is in once the output storage has been
    allocated. *)
Definition after_cpu_allocation (st : state) (allocated : Z) : state :=
  mkState (literals_owner st) (device_memory st) (chunks_owner st)
          (output_storage st ++ [(CPU, allocated)]) (launches st).

(** What [*exe_unit.output_buffer_multiplier] evaluates to. *)
Definition multiplier_as_read (exe_unit : TableFunctionExecutionUnit) : Z :=
  dereference (output_buffer_multiplier exe_unit) (disengaged_multiplier exe_unit).

(** The launcher [execute] hands over to. *)
Definition launcher (device_type : ExecutorDeviceType)
    (exe_unit : TableFunctionExecutionUnit)
    (compilation_context : TableFunctionCompilationContext)
    (col_buf_ptrs : list int8_ptr) (elem_count : Z) (executor : Executor)
    : M ResultSet :=
  match device_type with
  | CPU => launchCpuCode exe_unit compilation_context col_buf_ptrs elem_count executor
  | GPU => launchGpuCode exe_unit compilation_context col_buf_ptrs elem_count 0 executor
  end.

(** A constant [execute] can pack: floating point of 32 or 64 bits, or
    an integer of 8, 16, 32 or 64 bits. *)
Definition supported_literal (ti : SQLTypeInfo) : bool :=
  if is_fp ti
  then (get_bit_width ti =? 32) || (get_bit_width ti =? 64)
  else is_integer ti &&
       ((get_bit_width ti =? 8) || (get_bit_width ti =? 16) ||
        (get_bit_width ti =? 32) || (get_bit_width ti =? 64)).

(** An input the loop body gets through without raising on its own: a
    column whose element count fits [ssize_t], a supported constant, or
    an expression of another kind (which is skipped). *)
Definition marshalable (device_type : ExecutorDeviceType) (executor : Executor)
    (e : Expr) : Prop :=
  match e with
  | ColumnVar column =>
      0 <= getOneColumnFragment executor column (memory_level_of device_type) < 2 ^ 63
  | Constant ti _ => supported_literal ti = true
  | OtherExpr => True
  end.

Definition is_column (e : Expr) : bool :=
  match e with ColumnVar _ => true | _ => false end.

Definition is_supported_constant (e : Expr) : bool :=
  match e with Constant ti _ => supported_literal ti | _ => false end.

(** The inputs for which the loop pushes a buffer. *)
Definition buffered (e : Expr) : bool :=
  match e with OtherExpr => false | _ => true end.

(* ================================================================== *)
(** ** Concrete inputs used by the examples below *)

Module Examples.

(** Columns 0 and 2 have four elements, column 1 has five; fresh device
    memory holds the byte [0xAA]. *)
Definition executor : Executor :=
  mkExecutor (fun column _ => match column with 1%nat => 5 | _ => 4 end)
             (fun _ _ => 170) true true.

(** The same, but column 0 claims 2^63 elements. *)
Definition oversized_executor : Executor :=
  mkExecutor (fun column _ => match column with O => 2 ^ 63 | _ => 5 end)
             (fun _ _ => 170) true true.

Definition ti_integer (bits : Z) : SQLTypeInfo := mkTypeInfo false true bits.
Definition ti_floating (bits : Z) : SQLTypeInfo := mkTypeInfo true false bits.
Definition ti_text : SQLTypeInfo := mkTypeInfo false false 0.

(** A compiled function that succeeds and reports [k] output rows. *)
Definition reports (k : Z) : table_function := fun _ _ _ => (0, k).

(** A compiled function that succeeds and never writes the row count. *)
Definition leaves_unset : table_function := fun _ _ before => (0, before).

Definition compiled (f : table_function) : TableFunctionCompilationContext :=
  mkCompilationContext f (Some f).

(** An execution unit with one target; the storage of an absent
    multiplier holds zero. *)
Definition unit_of (inputs : list Expr) (multiplier : option Z)
    : TableFunctionExecutionUnit :=
  mkExeUnit inputs [0%nat] multiplier 0.

End Examples.

(* ================================================================== *)
(** ** Observations on the marshaled buffers *)

(** The pointer refers to memory of the execution device: a column chunk
    fetched at the device's memory level, a host slot on CPU, a device
    buffer on GPU. *)
Definition resident (device_type : ExecutorDeviceType) (p : int8_ptr) : Prop :=
  match p, device_type with
  | chunk_buffer _ level, _ => level = memory_level_of device_type
  | host_literal _, CPU => True
  | device_buffer _, GPU => True
  | _, _ => False
  end.

(** The pointer refers to a buffer that one of the invocation's owners
    holds. *)
Definition live (st : state) (p : int8_ptr) : Prop :=
  match p with
  | chunk_buffer column _ => In column (chunks_owner st)
  | host_literal slot => (slot < length (literals_owner st))%nat
  | device_buffer handle => (handle < length (device_memory st))%nat
  end.

(** The number of bytes [execute] packs for a constant of type [ti]: the
    [sizeof] of the union member its [switch] selects. *)
Definition literal_width (ti : SQLTypeInfo) : nat := Z.to_nat (get_bit_width ti / 8).

(** [p] is the buffer the loop body pushes for input [e], seen in [st]. *)
Definition marshaled_as (device_type : ExecutorDeviceType) (st : state)
    (e : Expr) (p : int8_ptr) : Prop :=
  live st p /\ resident device_type p /\
  match e with
  | ColumnVar column => p = chunk_buffer column (memory_level_of device_type)
  | Constant ti d =>
      length (pointee st p) = sizeof_int64_t /\
      firstn (literal_width ti) (pointee st p)
        = object_bytes (literal_width ti) (datum_storage d)
  | OtherExpr => False
  end.

(** The columns among the inputs, in order. *)
Definition columns_of (l : list Expr) : list nat :=
  flat_map (fun e => match e with ColumnVar column => [column] | _ => [] end) l.

(** Everything live in [st] is live in [st'] and reads the same. *)
Definition keeps_buffers (st st' : state) : Prop :=
  forall q, live st q -> live st' q /\ pointee st' q = pointee st q.

(** The ways [execute] can stop on [device_type]: which exceptions and
    which failed checks. *)
Definition may_stop_execute (device_type : ExecutorDeviceType) (s : stop) : Prop :=
  match s with
  | Thrown UnsupportedOutputPolicy => True
  | Thrown (UnsupportedLiteralType _) => True
  | Thrown (TableFunctionExecutionError err) => device_type = CPU /\ err <> 0
  | Thrown OutputCardinalityNotSet => device_type = CPU
  | CheckFailed NullCompilationContext => True
  | CheckFailed InconsistentInputCardinality => True
  | CheckFailed BufferCountMismatch => True
  | CheckFailed NoColumnInputs => True
  | CheckFailed NullGroupByBuffers => True
  | CheckFailed NullGpuContext => device_type = GPU
  | CheckFailed (KernelLaunchError cu_result) => device_type = GPU /\ cu_result <> 0
  | CheckFailed _ => False
  | Unreachable => True
  end.


(* ================================================================== *)
(** ** Further concrete inputs *)

Module MoreExamples.

(** Every column has four elements; fresh device memory holds [0x55]. *)
Definition uniform_executor : Executor :=
  mkExecutor (fun _ _ => 4) (fun _ _ => 85) true true.

(** The same in a build without CUDA. *)
Definition cpu_only_executor : Executor :=
  mkExecutor (fun _ _ => 4) (fun _ _ => 85) false true.

(** A compiled function that returns the error code [code] and never
    writes the row count; as a kernel, a launch the driver rejects with
    [code]. *)
Definition fails_with (code : Z) : table_function := fun _ _ before => (code, before).

(** A column, a 16-bit integer constant holding 258, a double. *)
Definition mixed_inputs : list Expr :=
  [ColumnVar 0;
   Constant (mkTypeInfo false true 16) (mkDatum 258);
   Constant (mkTypeInfo true false 64) (mkDatum 4611686018427387904)].

(** An executor whose output initializer hands back no buffers. *)
Definition bufferless_executor : Executor :=
  mkExecutor (fun _ _ => 4) (fun _ _ => 85) true false.

(** An execution unit without row multiplier whose optional's storage
    holds [storage]. *)
Definition unit_without_multiplier (inputs : list Expr) (storage : Z)
    : TableFunctionExecutionUnit :=
  mkExeUnit inputs [0%nat] None storage.

End MoreExamples.

(* ================================================================== *)
(** * Properties *)

(** ** Machine integers and bytes *)

Lemma to_signed_of_signed (bits v : Z) :
  0 < bits -> - 2 ^ (bits - 1) <= v < 2 ^ (bits - 1) -> to_signed bits v = v.
Proof.
  intros Hb Hv. unfold to_signed.
  assert (Hp : 2 ^ bits = 2 * 2 ^ (bits - 1)).
  { replace bits with (Z.succ (bits - 1)) at 1 by lia. apply Z.pow_succ_r. lia. }
  assert (H0 : 0 < 2 ^ (bits - 1)) by (apply Z.pow_pos_nonneg; lia).
  destruct (Z_lt_ge_dec v 0) as [Hneg | Hpos].
  - assert (Hm : v mod 2 ^ bits = v + 2 ^ bits).
    { symmetry. apply Z.mod_unique with (q := -1); lia. }
    rewrite Hm. destruct (Z.ltb_spec (v + 2 ^ bits) (2 ^ (bits - 1))); lia.
  - rewrite Z.mod_small by lia.
    destruct (Z.ltb_spec v (2 ^ (bits - 1))); lia.
Qed.

Lemma to_signed_mod (bits v : Z) :
  to_signed bits (v mod 2 ^ bits) = to_signed bits v.
Proof. unfold to_signed. now rewrite Z.mod_mod_divide by apply Z.divide_refl. Qed.

Lemma to_size_t_range (v : Z) : 0 <= to_size_t v < 2 ^ 64.
Proof. unfold to_size_t, to_unsigned. apply Z.mod_pos_bound. lia. Qed.

Lemma to_size_t_small (v : Z) : 0 <= v < 2 ^ 64 -> to_size_t v = v.
Proof. intros. unfold to_size_t, to_unsigned. now apply Z.mod_small. Qed.

(** [size_t] to [int64_t] and back is the identity. *)
Lemma to_size_t_to_int64 (v : Z) : 0 <= v < 2 ^ 64 -> to_size_t (to_int64 v) = v.
Proof.
  intros Hv. unfold to_size_t, to_int64, to_unsigned, to_signed.
  rewrite (Z.mod_small v) by lia.
  destruct (Z.ltb_spec v (2 ^ (64 - 1))).
  - apply Z.mod_small; lia.
  - symmetry. apply Z.mod_unique with (q := -1); lia.
Qed.

Lemma to_int64_nonneg_range (v : Z) : 0 <= to_int64 v -> 0 <= to_int64 v < 2 ^ 63.
Proof.
  unfold to_int64, to_signed. intros H.
  pose proof (Z.mod_pos_bound v (2 ^ 64) ltac:(lia)).
  destruct (Z.ltb_spec (v mod 2 ^ 64) (2 ^ (64 - 1))); simpl in *; lia.
Qed.

Lemma length_object_bytes (n : nat) (v : Z) : length (object_bytes n v) = n.
Proof. revert v. induction n; intros; simpl; auto. Qed.

Lemma bytes_value_object_bytes (n : nat) (v : Z) :
  bytes_value (object_bytes n v) = v mod 2 ^ (8 * Z.of_nat n).
Proof.
  revert v. induction n as [| n IH]; intros v.
  - simpl. now rewrite Z.mod_1_r.
  - cbn [object_bytes bytes_value]. rewrite IH.
    replace (8 * Z.of_nat (S n)) with (8 + 8 * Z.of_nat n) by lia.
    rewrite Z.pow_add_r by lia. change (2 ^ 8) with 256.
    rewrite Z.rem_mul_r by (try apply Z.pow_nonzero; try apply Z.pow_pos_nonneg; lia).
    reflexivity.
Qed.

Lemma memcpy_whole_source (dst src : list Z) :
  memcpy dst src (length src) = src ++ skipn (length src) dst.
Proof. unfold memcpy. now rewrite firstn_all. Qed.

(** Reading the object representation of an in-range [T] back gives the
    value. *)
Lemma literal_of_object_bytes (T : scalar_type) (v : Z) :
  literal_in_range T v -> literal_of_bytes T (object_bytes (sizeof T) v) = v.
Proof.
  unfold literal_in_range, literal_of_bytes. intros Hv.
  rewrite bytes_value_object_bytes.
  destruct (is_floating T).
  - now apply Z.mod_small.
  - rewrite to_signed_mod. apply to_signed_of_signed; [destruct T; simpl; lia | exact Hv].
Qed.

(** ** The owners: reading a cell after it was written *)

Lemma nth_indexed_update {A} (f : A -> A) (i : nat) (d : A) (l : list A) (start : nat) :
  (i < length l)%nat ->
  nth i (map (fun '(j, b) => if Nat.eqb j (start + i) then f b else b)
             (combine (seq start (length l)) l)) d
  = f (nth i l d).
Proof.
  revert i start. induction l as [| a l IH]; intros i start Hi; simpl in Hi; [lia |].
  destruct i as [| i]; simpl.
  - replace (start + 0)%nat with start by lia. now rewrite Nat.eqb_refl.
  - specialize (IH i (S start) ltac:(lia)).
    replace (S start + i)%nat with (start + S i)%nat in IH by lia. exact IH.
Qed.

Lemma nth_update_last {A} (f : A -> A) (d a : A) (l : list A) :
  nth (length l)
      (map (fun '(j, b) => if Nat.eqb j (length l) then f b else b)
           (combine (seq 0 (length (l ++ [a]))) (l ++ [a]))) d
  = f a.
Proof.
  pose proof (nth_indexed_update f (length l) d (l ++ [a]) 0) as H.
  simpl in H. rewrite H by (rewrite length_app; simpl; lia).
  now rewrite nth_middle.
Qed.

Lemma length_uninitialized (executor : Executor) (handle n : nat) :
  length (uninitialized executor handle n) = n.
Proof. unfold uninitialized. now rewrite length_map, length_seq. Qed.

Lemma length_fresh_slot (device_type : ExecutorDeviceType) (executor : Executor) (st : state) :
  length (fresh_slot device_type executor st) = 8%nat.
Proof.
  destruct device_type; [reflexivity | apply length_uninitialized].
Qed.

(** ** create_literal_buffer *)

Lemma sizeof_le_slot (T : scalar_type) : Nat.leb (sizeof T) sizeof_int64_t = true.
Proof. now destruct T. Qed.

(** The packer succeeds whenever it is given an allocator on GPU, and
    what its pointer refers to is the fresh slot with the literal copied
    over its first [sizeof T] bytes. *)
Lemma create_literal_buffer_slot (T : scalar_type) (v : Z)
    (device_type : ExecutorDeviceType) (executor : Executor) (st : state) :
  exists p st',
    create_literal_buffer T v device_type executor (device_allocator_for device_type) st
      = (inr p, st') /\
    pointee st' p
      = object_bytes (sizeof T) v ++ skipn (sizeof T) (fresh_slot device_type executor st) /\
    output_storage st' = output_storage st /\
    launches st' = launches st.
Proof.
  unfold create_literal_buffer, bind, CHECK. rewrite sizeof_le_slot.
  destruct device_type; simpl.
  - eexists; eexists; split; [reflexivity |]. cbn [pointee literals_owner output_storage launches].
    split; [| split; reflexivity].
    rewrite (nth_update_last (fun b => memcpy b (object_bytes (sizeof T) v) (sizeof T))).
    rewrite <- (length_object_bytes (sizeof T) v) at 2 4.
    now rewrite memcpy_whole_source, length_object_bytes.
  - eexists; eexists; split; [reflexivity |]. cbn [pointee device_memory output_storage launches].
    split; [| split; reflexivity].
    rewrite (nth_update_last
               (fun c => match c with
                         | DeviceBytes b => DeviceBytes (memcpy b (object_bytes (sizeof T) v) (sizeof T))
                         | _ => DeviceBytes (firstn (sizeof T) (object_bytes (sizeof T) v))
                         end)).
    rewrite <- (length_object_bytes (sizeof T) v) at 2 4.
    now rewrite memcpy_whole_source, length_object_bytes.
Qed.

(** C3. For every supported literal type [T] (integers of 8, 16, 32 and 64
    bits, floating point of 32 and 64 bits), every value [v] of that type
    and either device, [create_literal_buffer] returns a pointer to an
    8-byte slot whose first [sizeof T] bytes are the object representation
    of [v], so reading a [T] back from the low end gives [v] again; the
    bytes from [sizeof T] on are those the fresh allocation held (exactly
    [sizeof T] bytes are written, nothing is extended). *)
Theorem literal_pack_then_read_back (T : scalar_type) (v : Z)
    (device_type : ExecutorDeviceType) (executor : Executor) (st : state) :
  literal_in_range T v ->
  exists p st',
    create_literal_buffer T v device_type executor (device_allocator_for device_type) st
      = (inr p, st') /\
    length (pointee st' p) = sizeof_int64_t /\
    firstn (sizeof T) (pointee st' p) = object_bytes (sizeof T) v /\
    literal_of_bytes T (firstn (sizeof T) (pointee st' p)) = v /\
    skipn (sizeof T) (pointee st' p)
      = skipn (sizeof T) (fresh_slot device_type executor st).
Proof.
  intros Hv.
  destruct (create_literal_buffer_slot T v device_type executor st)
    as (p & st' & Hrun & Hslot & _ & _).
  exists p, st'. rewrite Hslot. split; [exact Hrun |].
  assert (Hlen : length (object_bytes (sizeof T) v) = sizeof T) by apply length_object_bytes.
  repeat split.
  - rewrite length_app, length_skipn, length_fresh_slot, Hlen.
    pose proof (sizeof_le_slot T) as Hle. apply Nat.leb_le in Hle.
    unfold sizeof_int64_t in *. lia.
  - rewrite <- Hlen at 1. rewrite firstn_app, firstn_all, Nat.sub_diag. simpl.
    now rewrite app_nil_r.
  - rewrite <- Hlen at 1. rewrite firstn_app, firstn_all, Nat.sub_diag. simpl.
    rewrite app_nil_r. now apply literal_of_object_bytes.
  - rewrite <- Hlen at 1. rewrite skipn_app, skipn_all, Nat.sub_diag. reflexivity.
Qed.

(** ** get_output_row_count *)

Lemma multiplier_as_read_present (u : TableFunctionExecutionUnit) (m : Z) :
  output_buffer_multiplier u = Some m -> multiplier_as_read u = m.
Proof. unfold multiplier_as_read. now intros ->. Qed.

Lemma multiplier_as_read_absent (u : TableFunctionExecutionUnit) :
  output_buffer_multiplier u = None -> multiplier_as_read u = disengaged_multiplier u.
Proof. unfold multiplier_as_read. now intros ->. Qed.

(** The guard looks at the dereferenced value and at nothing else. *)
Lemma get_output_row_count_read (u : TableFunctionExecutionUnit) (n : Z) (st : state) :
  get_output_row_count u n st
  = (if multiplier_as_read u =? 0
     then inl (Thrown UnsupportedOutputPolicy)
     else inr (to_size_t (multiplier_as_read u * n)), st).
Proof.
  unfold get_output_row_count, multiplier_as_read.
  now destruct (dereference _ _ =? 0).
Qed.

Lemma get_output_row_count_sized (u : TableFunctionExecutionUnit) (n : Z) (st : state) :
  multiplier_as_read u <> 0 ->
  get_output_row_count u n st = (inr (to_size_t (multiplier_as_read u * n)), st).
Proof.
  intros Hnz. rewrite get_output_row_count_read.
  now destruct (Z.eqb_spec (multiplier_as_read u) 0).
Qed.

Lemma get_output_row_count_rejected (u : TableFunctionExecutionUnit) (n : Z) (st : state) :
  multiplier_as_read u = 0 ->
  get_output_row_count u n st = (inl (Thrown UnsupportedOutputPolicy), st).
Proof. intros Hz. now rewrite get_output_row_count_read, Hz. Qed.

Lemma get_output_row_count_present (u : TableFunctionExecutionUnit) (m n : Z) (st : state) :
  output_buffer_multiplier u = Some m -> m <> 0 ->
  get_output_row_count u n st = (inr (to_size_t (m * n)), st).
Proof.
  intros Hm Hnz. rewrite get_output_row_count_sized;
    rewrite (multiplier_as_read_present u m Hm); auto.
Qed.

Lemma get_output_row_count_zero (u : TableFunctionExecutionUnit) (n : Z) (st : state) :
  output_buffer_multiplier u = Some 0 ->
  get_output_row_count u n st = (inl (Thrown UnsupportedOutputPolicy), st).
Proof.
  intros Hm. apply get_output_row_count_rejected. now apply multiplier_as_read_present.
Qed.

(** Whatever it answers, sizing the output leaves the state alone. *)
Lemma get_output_row_count_state (u : TableFunctionExecutionUnit) (n : Z) (st : state) :
  snd (get_output_row_count u n st) = st.
Proof. now rewrite get_output_row_count_read. Qed.

(** Its only failure is the rejected guard. *)
Lemma get_output_row_count_cases (u : TableFunctionExecutionUnit) (n : Z) (st : state) :
  (multiplier_as_read u <> 0 /\
   get_output_row_count u n st = (inr (to_size_t (multiplier_as_read u * n)), st)) \/
  (multiplier_as_read u = 0 /\
   get_output_row_count u n st = (inl (Thrown UnsupportedOutputPolicy), st)).
Proof.
  destruct (Z.eq_dec (multiplier_as_read u) 0) as [Hz | Hnz].
  - right. split; [exact Hz | now apply get_output_row_count_rejected].
  - left. split; [exact Hnz | now apply get_output_row_count_sized].
Qed.

(** ** The launchers, step by step *)

Lemma launchCpuCode_empty (u : TableFunctionExecutionUnit)
    (cc : TableFunctionCompilationContext) (n : Z) (ex : Executor) (st : state) :
  launchCpuCode u cc [] n ex st = (inl (CheckFailed NullByteStream), st).
Proof. reflexivity. Qed.

Lemma launchCpuCode_sizing_failed (u : TableFunctionExecutionUnit)
    (cc : TableFunctionCompilationContext) (bufs : list int8_ptr) (n : Z)
    (ex : Executor) (st : state) (s : stop) :
  bufs <> [] ->
  get_output_row_count u n st = (inl s, st) ->
  launchCpuCode u cc bufs n ex st = (inl s, st).
Proof.
  intros Hb Hg. destruct bufs as [| b bufs]; [contradiction |].
  unfold launchCpuCode, bind, CHECK. simpl. now rewrite Hg.
Qed.

Lemma launchCpuCode_without_buffers (u : TableFunctionExecutionUnit)
    (cc : TableFunctionCompilationContext) (bufs : list int8_ptr) (n : Z)
    (ex : Executor) (st : state) (allocated : Z) :
  bufs <> [] ->
  get_output_row_count u n st = (inr allocated, st) ->
  getGroupByBuffersPtr ex = false ->
  launchCpuCode u cc bufs n ex st
  = (inl (CheckFailed NullGroupByBuffers), after_cpu_allocation st allocated).
Proof.
  intros Hb Hg Hgb. destruct bufs as [| b bufs]; [contradiction |].
  unfold launchCpuCode, bind, CHECK. simpl. rewrite Hg. simpl.
  unfold bind, QueryMemoryInitializer. simpl. now rewrite Hgb.
Qed.

Lemma launchCpuCode_launched (u : TableFunctionExecutionUnit)
    (cc : TableFunctionCompilationContext) (bufs : list int8_ptr) (n : Z)
    (ex : Executor) (st : state) (allocated err k : Z) :
  bufs <> [] ->
  get_output_row_count u n st = (inr allocated, st) ->
  getGroupByBuffersPtr ex = true ->
  getFuncPtr cc bufs (to_int64 n) (-1) = (err, k) ->
  launchCpuCode u cc bufs n ex st
  = (if negb (to_int32 err =? 0)
     then inl (Thrown (TableFunctionExecutionError (to_int32 err)))
     else if to_int64 k <? 0
          then inl (Thrown OutputCardinalityNotSet)
          else inr (mkResultSet CPU (output_col_slots u) allocated
                                (to_size_t (to_int64 k))),
     after_cpu_launch st allocated).
Proof.
  intros Hb Hg Hgb Hf. destruct bufs as [| b bufs]; [contradiction |].
  unfold launchCpuCode, bind, CHECK. simpl. rewrite Hg. simpl.
  unfold bind, record_launch, QueryMemoryInitializer. simpl. rewrite Hgb. simpl.
  rewrite Hf.
  destruct (negb (to_int32 err =? 0)); [reflexivity |].
  destruct (to_int64 k <? 0); reflexivity.
Qed.

Lemma launchGpuCode_without_cuda (u : TableFunctionExecutionUnit)
    (cc : TableFunctionCompilationContext) (bufs : list int8_ptr) (n : Z)
    (ex : Executor) (st : state) :
  HAVE_CUDA ex = false ->
  launchGpuCode u cc bufs n 0 ex st = (inl Unreachable, st).
Proof. intros H. unfold launchGpuCode. now rewrite H. Qed.

Ltac gpu_step :=
  cbn [negb fst snd literals_owner device_memory chunks_owner output_storage launches].

Ltac run_gpu_launcher Hcuda :=
  unfold launchGpuCode, get_output_row_count; rewrite Hcuda;
  unfold bind, cuda_alloc, copyPointersToDevice, copyToDevice, update_cell,
    QueryMemoryInitializer,
    setupTableFunctionGpuBuffers, record_launch, CHECK, throw, fail, ret;
  gpu_step.

Lemma launchGpuCode_sizing_failed (u : TableFunctionExecutionUnit)
    (cc : TableFunctionCompilationContext) (bufs : list int8_ptr) (n : Z)
    (ex : Executor) (st : state) :
  HAVE_CUDA ex = true ->
  multiplier_as_read u = 0 ->
  fst (launchGpuCode u cc bufs n 0 ex st) = inl (Thrown UnsupportedOutputPolicy) /\
  output_storage (snd (launchGpuCode u cc bufs n 0 ex st)) = output_storage st /\
  launches (snd (launchGpuCode u cc bufs n 0 ex st)) = launches st /\
  length (device_memory (snd (launchGpuCode u cc bufs n 0 ex st)))
    = (length (device_memory st) + 3)%nat.
Proof.
  intros Hcuda Hm. unfold multiplier_as_read in Hm. run_gpu_launcher Hcuda.
  rewrite Hm. simpl.
  repeat split; try reflexivity;
    repeat (rewrite ?length_map, ?length_combine, ?length_seq, ?length_app; simpl);
    lia.
Qed.

Lemma launchGpuCode_sized (u : TableFunctionExecutionUnit)
    (cc : TableFunctionCompilationContext) (bufs : list int8_ptr) (n m : Z)
    (ex : Executor) (st : state) :
  HAVE_CUDA ex = true ->
  multiplier_as_read u = m -> m <> 0 ->
  output_storage (snd (launchGpuCode u cc bufs n 0 ex st))
    = output_storage st ++ [(GPU, to_size_t (m * n))] /\
  if getGroupByBuffersPtr ex then
    match getGpuCode cc with
    | None =>
        fst (launchGpuCode u cc bufs n 0 ex st) = inl (CheckFailed NullGpuContext) /\
        launches (snd (launchGpuCode u cc bufs n 0 ex st)) = launches st
    | Some cu_func =>
        launches (snd (launchGpuCode u cc bufs n 0 ex st)) = launches st ++ [GPU] /\
        fst (launchGpuCode u cc bufs n 0 ex st)
        = let cu_result := fst (cu_func bufs n (-1)) in
          let device_row_count := to_int64 (snd (cu_func bufs n (-1))) in
          if cu_result =? 0
          then inr (mkResultSet GPU (output_col_slots u) (to_size_t (m * n))
                      (to_size_t (if device_row_count <? 0
                                  then to_int64 (to_size_t (m * n))
                                  else device_row_count)))
          else inl (CheckFailed (KernelLaunchError cu_result))
    end
  else
    fst (launchGpuCode u cc bufs n 0 ex st) = inl (CheckFailed NullGroupByBuffers) /\
    launches (snd (launchGpuCode u cc bufs n 0 ex st)) = launches st.
Proof.
  intros Hcuda Hm Hnz. unfold multiplier_as_read in Hm. run_gpu_launcher Hcuda.
  rewrite Hm. destruct (Z.eqb_spec m 0) as [| _]; [contradiction |]. gpu_step.
  destruct (getGroupByBuffersPtr ex); gpu_step; [| repeat split; reflexivity].
  destruct (getGpuCode cc) as [cu_func |]; gpu_step; [| repeat split; reflexivity].
  destruct (cu_func bufs n (-1)) as [cu v]. gpu_step.
  destruct (cu =? 0); gpu_step; repeat split; reflexivity.
Qed.

(** ** The marshaling loop *)

Lemma marshal_input_other (dev : ExecutorDeviceType) (ex : Executor) (alloc : bool)
    (loop : list int8_ptr * Z) (st : state) :
  marshal_input dev ex alloc loop OtherExpr st = (inr loop, st).
Proof. now destruct loop. Qed.

Lemma marshal_input_column (dev : ExecutorDeviceType) (ex : Executor) (alloc : bool)
    (bufs : list int8_ptr) (ec : Z) (column : nat) (st : state) :
  let count := to_ssize_t (getOneColumnFragment ex column (memory_level_of dev)) in
  let bufs' := bufs ++ [chunk_buffer column (memory_level_of dev)] in
  marshal_input dev ex alloc (bufs, ec) (ColumnVar column) st
  = (if ec <? 0 then inr (bufs', count)
     else if count =? ec then inr (bufs', ec)
          else inl (CheckFailed InconsistentInputCardinality),
     snd (own_chunk column st)).
Proof.
  unfold marshal_input, bind, own_chunk, CHECK. simpl.
  destruct (ec <? 0); [reflexivity |].
  destruct (to_ssize_t (getOneColumnFragment ex column (memory_level_of dev)) =? ec);
    reflexivity.
Qed.

Lemma marshal_constant_supported (ti : SQLTypeInfo) (d : Datum)
    (dev : ExecutorDeviceType) (ex : Executor) (st : state) :
  supported_literal ti = true ->
  exists p st',
    marshal_constant ti d dev ex (device_allocator_for dev) st = (inr p, st') /\
    output_storage st' = output_storage st /\ launches st' = launches st.
Proof.
  unfold supported_literal, marshal_constant. intros Hs.
  destruct (is_fp ti).
  - destruct (get_bit_width ti =? 32).
    { destruct (create_literal_buffer_slot t_float (floatval d) dev ex st)
        as (p & st' & H & _ & Ho & Hl). eauto. }
    destruct (get_bit_width ti =? 64); [| discriminate].
    destruct (create_literal_buffer_slot t_double (doubleval d) dev ex st)
      as (p & st' & H & _ & Ho & Hl). eauto.
  - destruct (is_integer ti); [| discriminate]. simpl in Hs.
    destruct (get_bit_width ti =? 8).
    { destruct (create_literal_buffer_slot t_int8 (tinyintval d) dev ex st)
        as (p & st' & H & _ & Ho & Hl). eauto. }
    destruct (get_bit_width ti =? 16).
    { destruct (create_literal_buffer_slot t_int16 (smallintval d) dev ex st)
        as (p & st' & H & _ & Ho & Hl). eauto. }
    destruct (get_bit_width ti =? 32).
    { destruct (create_literal_buffer_slot t_int32 (intval d) dev ex st)
        as (p & st' & H & _ & Ho & Hl). eauto. }
    destruct (get_bit_width ti =? 64); [| discriminate].
    destruct (create_literal_buffer_slot t_int64 (bigintval d) dev ex st)
      as (p & st' & H & _ & Ho & Hl). eauto.
Qed.

Lemma marshal_constant_unsupported (ti : SQLTypeInfo) (d : Datum)
    (dev : ExecutorDeviceType) (ex : Executor) (alloc : bool) (st : state) :
  supported_literal ti = false ->
  marshal_constant ti d dev ex alloc st
  = (inl (if is_fp ti || is_integer ti then Unreachable
          else Thrown (UnsupportedLiteralType d)), st).
Proof.
  unfold supported_literal, marshal_constant. intros Hs.
  destruct (is_fp ti); simpl.
  - destruct (get_bit_width ti =? 32); [discriminate |].
    destruct (get_bit_width ti =? 64); [discriminate | reflexivity].
  - destruct (is_integer ti); [| reflexivity]. simpl in Hs.
    destruct (get_bit_width ti =? 8); [discriminate |].
    destruct (get_bit_width ti =? 16); [discriminate |].
    destruct (get_bit_width ti =? 32); [discriminate |].
    destruct (get_bit_width ti =? 64); [discriminate | reflexivity].
Qed.

(** One iteration, by the kind of its input: what it answers, and that it
    touches neither the output storage nor the launch record. *)
Lemma marshal_input_cases (dev : ExecutorDeviceType) (ex : Executor)
    (bufs : list int8_ptr) (ec : Z) (e : Expr) (st : state) :
  let r := marshal_input dev ex (device_allocator_for dev) (bufs, ec) e st in
  output_storage (snd r) = output_storage st /\
  launches (snd r) = launches st /\
  match e with
  | OtherExpr => fst r = inr (bufs, ec)
  | ColumnVar column =>
      let count := to_ssize_t (getOneColumnFragment ex column (memory_level_of dev)) in
      let bufs' := bufs ++ [chunk_buffer column (memory_level_of dev)] in
      fst r = (if ec <? 0 then inr (bufs', count)
               else if count =? ec then inr (bufs', ec)
                    else inl (CheckFailed InconsistentInputCardinality))
  | Constant ti d =>
      if supported_literal ti
      then exists p, fst r = inr (bufs ++ [p], ec)
      else fst r = inl (if is_fp ti || is_integer ti then Unreachable
                        else Thrown (UnsupportedLiteralType d))
  end.
Proof.
  destruct e as [column | ti d |].
  - cbv zeta. rewrite marshal_input_column. simpl. auto.
  - cbv zeta. unfold marshal_input, bind.
    destruct (supported_literal ti) eqn:Hs.
    + destruct (marshal_constant_supported ti d dev ex st Hs) as (p & st' & H & Ho & Hl).
      rewrite H. simpl. repeat split; eauto.
    + rewrite (marshal_constant_unsupported ti d dev ex _ st Hs). simpl. auto.
  - cbv zeta. rewrite marshal_input_other. simpl. auto.
Qed.

Lemma marshal_inputs_cons (dev : ExecutorDeviceType) (ex : Executor) (alloc : bool)
    (e : Expr) (l : list Expr) (loop : list int8_ptr * Z) (st : state) :
  marshal_inputs dev ex alloc (e :: l) loop st
  = match marshal_input dev ex alloc loop e st with
    | (inl s, st') => (inl s, st')
    | (inr loop', st') => marshal_inputs dev ex alloc l loop' st'
    end.
Proof. reflexivity. Qed.

Lemma marshal_inputs_app (dev : ExecutorDeviceType) (ex : Executor) (alloc : bool)
    (l post : list Expr) (loop : list int8_ptr * Z) (st : state) :
  marshal_inputs dev ex alloc (l ++ post) loop st
  = match marshal_inputs dev ex alloc l loop st with
    | (inl s, st') => (inl s, st')
    | (inr loop', st') => marshal_inputs dev ex alloc post loop' st'
    end.
Proof.
  revert loop st. induction l as [| e l IH]; intros loop st; [reflexivity |].
  simpl app. rewrite !marshal_inputs_cons.
  destruct (marshal_input dev ex alloc loop e st) as [[s | loop'] st']; [reflexivity |].
  apply IH.
Qed.

(** Marshaling never allocates output storage and never launches. *)
Lemma marshal_inputs_no_output (dev : ExecutorDeviceType) (ex : Executor)
    (l : list Expr) (loop : list int8_ptr * Z) (st : state) :
  let r := marshal_inputs dev ex (device_allocator_for dev) l loop st in
  output_storage (snd r) = output_storage st /\ launches (snd r) = launches st.
Proof.
  revert loop st. induction l as [| e l IH]; intros [bufs ec] st; [simpl; auto |].
  cbv zeta. rewrite marshal_inputs_cons.
  pose proof (marshal_input_cases dev ex bufs ec e st) as (Ho & Hl & _).
  destruct (marshal_input dev ex (device_allocator_for dev) (bufs, ec) e st)
    as [[s | loop'] st']; simpl in *; [auto |].
  destruct (IH loop' st') as (Ho' & Hl'). split; congruence.
Qed.

(** When the loop completes, one buffer was pushed for every input that
    is a column or a constant, and none for the others. *)
Lemma marshal_inputs_length (dev : ExecutorDeviceType) (ex : Executor)
    (l : list Expr) (bufs bufs' : list int8_ptr) (ec ec' : Z) (st : state) :
  fst (marshal_inputs dev ex (device_allocator_for dev) l (bufs, ec) st)
    = inr (bufs', ec') ->
  length bufs' = (length bufs + length (filter buffered l))%nat.
Proof.
  revert bufs ec st. induction l as [| e l IH]; intros bufs ec st H.
  - simpl in H. injection H as <- _. simpl. lia.
  - rewrite marshal_inputs_cons in H.
    pose proof (marshal_input_cases dev ex bufs ec e st) as (_ & _ & Hc).
    destruct (marshal_input dev ex (device_allocator_for dev) (bufs, ec) e st)
      as [[s | [bufs1 ec1]] st1]; simpl in *; [discriminate |].
    apply IH in H. rewrite H. clear H IH.
    destruct e as [column | ti d |]; simpl.
    + cbv zeta in Hc. destruct (ec <? 0).
      * injection Hc as -> _. rewrite length_app. simpl. lia.
      * destruct (_ =? ec); [| discriminate].
        injection Hc as -> _. rewrite length_app. simpl. lia.
    + destruct (supported_literal ti); [| discriminate].
      destruct Hc as (p & Hc). injection Hc as -> _. rewrite length_app. simpl. lia.
    + injection Hc as -> _. lia.
Qed.

Lemma to_ssize_t_count (v : Z) : 0 <= v < 2 ^ 63 -> to_ssize_t v = v.
Proof. intros. apply to_signed_of_signed; lia. Qed.

(** When the loop completes over columns whose counts fit [ssize_t], every
    column it went through has the element count it ends with, and an
    element count that was established before is kept. *)
Lemma marshal_inputs_columns_agree (dev : ExecutorDeviceType) (ex : Executor)
    (l : list Expr) (bufs bufs' : list int8_ptr) (ec ec' : Z) (st : state) :
  Forall (marshalable dev ex) l ->
  fst (marshal_inputs dev ex (device_allocator_for dev) l (bufs, ec) st)
    = inr (bufs', ec') ->
  (0 <= ec -> ec' = ec) /\
  (forall column, In (ColumnVar column) l ->
     getOneColumnFragment ex column (memory_level_of dev) = ec').
Proof.
  revert bufs ec st. induction l as [| e l IH]; intros bufs ec st Hall H.
  - simpl in H. injection H as _ <-. split; [auto | intros ? []].
  - rewrite marshal_inputs_cons in H. inversion Hall as [| ? ? He Hl]; subst.
    pose proof (marshal_input_cases dev ex bufs ec e st) as (_ & _ & Hc).
    destruct (marshal_input dev ex (device_allocator_for dev) (bufs, ec) e st)
      as [[s | [bufs1 ec1]] st1]; simpl in *; [discriminate |].
    destruct (IH _ _ _ Hl H) as (Hkeep & Hcols). clear IH H.
    destruct e as [column | ti d |].
    + cbv zeta in Hc. simpl in He. rewrite (to_ssize_t_count _ He) in Hc.
      destruct (Z.ltb_spec ec 0).
      * injection Hc as _ ->. split; [lia |].
        intros c [Hc | Hc]; [injection Hc as <-; symmetry; apply Hkeep; lia | auto].
      * destruct (Z.eqb_spec (getOneColumnFragment ex column (memory_level_of dev)) ec);
          [| discriminate].
        injection Hc as _ ->. split; [auto |].
        intros c [Hc | Hc]; [injection Hc as <-; rewrite Hkeep; auto | auto].
    + destruct (supported_literal ti); [| discriminate].
      destruct Hc as (p & Hc). injection Hc as _ ->. split; [auto |].
      intros c [Hc | Hc]; [discriminate | auto].
    + injection Hc as _ ->. split; [auto |].
      intros c [Hc | Hc]; [discriminate | auto].
Qed.

(** Over marshalable inputs the loop can only stop at the cardinality
    check. *)
Lemma marshal_inputs_failure (dev : ExecutorDeviceType) (ex : Executor)
    (l : list Expr) (loop : list int8_ptr * Z) (st : state) (s : stop) :
  Forall (marshalable dev ex) l ->
  fst (marshal_inputs dev ex (device_allocator_for dev) l loop st) = inl s ->
  s = CheckFailed InconsistentInputCardinality.
Proof.
  revert loop st. induction l as [| e l IH]; intros [bufs ec] st Hall H.
  - discriminate.
  - rewrite marshal_inputs_cons in H. inversion Hall as [| ? ? He Hl]; subst.
    pose proof (marshal_input_cases dev ex bufs ec e st) as (_ & _ & Hc).
    destruct (marshal_input dev ex (device_allocator_for dev) (bufs, ec) e st)
      as [[s1 | loop1] st1]; simpl in *; [| eauto].
    injection H as <-. clear IH.
    destruct e as [column | ti d |].
    + cbv zeta in Hc. destruct (ec <? 0); [discriminate |].
      destruct (_ =? ec); [discriminate | congruence].
    + simpl in He. rewrite He in Hc. destruct Hc as (p & Hc). discriminate.
    + discriminate.
Qed.

(** Without a column among the inputs the element count stays as it was. *)
Lemma marshal_inputs_no_column (dev : ExecutorDeviceType) (ex : Executor)
    (l : list Expr) (bufs bufs' : list int8_ptr) (ec ec' : Z) (st : state) :
  forallb (fun e => negb (is_column e)) l = true ->
  fst (marshal_inputs dev ex (device_allocator_for dev) l (bufs, ec) st)
    = inr (bufs', ec') ->
  ec' = ec.
Proof.
  revert bufs ec st. induction l as [| e l IH]; intros bufs ec st Hn H.
  - simpl in H. now injection H as _ <-.
  - rewrite marshal_inputs_cons in H. simpl in Hn. apply andb_prop in Hn as (He & Hn).
    pose proof (marshal_input_cases dev ex bufs ec e st) as (_ & _ & Hc).
    destruct (marshal_input dev ex (device_allocator_for dev) (bufs, ec) e st)
      as [[s | [bufs1 ec1]] st1]; simpl in *; [discriminate |].
    rewrite (IH _ _ _ Hn H). clear IH H.
    destruct e as [column | ti d |]; [discriminate | |].
    + destruct (supported_literal ti); [| discriminate].
      destruct Hc as (p & Hc). now injection Hc as _ ->.
    + now injection Hc as _ ->.
Qed.

(** Supported constants alone always get through the loop. *)
Lemma marshal_inputs_constants (dev : ExecutorDeviceType) (ex : Executor)
    (l : list Expr) (loop : list int8_ptr * Z) (st : state) :
  forallb is_supported_constant l = true ->
  exists loop', fst (marshal_inputs dev ex (device_allocator_for dev) l loop st) = inr loop'.
Proof.
  revert loop st. induction l as [| e l IH]; intros [bufs ec] st Hall.
  - simpl. eauto.
  - rewrite marshal_inputs_cons. simpl in Hall. apply andb_prop in Hall as (He & Hall).
    pose proof (marshal_input_cases dev ex bufs ec e st) as (_ & _ & Hc).
    destruct (marshal_input dev ex (device_allocator_for dev) (bufs, ec) e st)
      as [[s | loop1] st1]; simpl in *; [| eauto].
    destruct e as [column | ti d |]; try discriminate.
    simpl in He. rewrite He in Hc. destruct Hc as (p & Hc). discriminate.
Qed.

Lemma marshal_inputs_failure_kinds (dev : ExecutorDeviceType) (ex : Executor)
    (l : list Expr) (loop : list int8_ptr * Z) (st : state) (s : stop) :
  fst (marshal_inputs dev ex (device_allocator_for dev) l loop st) = inl s ->
  s = CheckFailed InconsistentInputCardinality \/ s = Unreachable \/
  exists d, s = Thrown (UnsupportedLiteralType d).
Proof.
  revert loop st. induction l as [| e l IH]; intros [bufs ec] st H.
  - discriminate.
  - rewrite marshal_inputs_cons in H.
    pose proof (marshal_input_cases dev ex bufs ec e st) as (_ & _ & Hc).
    destruct (marshal_input dev ex (device_allocator_for dev) (bufs, ec) e st)
      as [[s1 | loop1] st1]; simpl in *; [| eauto].
    injection H as <-. clear IH.
    destruct e as [column | ti d |].
    + cbv zeta in Hc. destruct (ec <? 0); [discriminate |].
      destruct (_ =? ec); [discriminate |]. left. congruence.
    + destruct (supported_literal ti); [destruct Hc as (p & Hc); discriminate |].
      injection Hc as ->. destruct (is_fp ti || is_integer ti); eauto.
    + discriminate.
Qed.

(** ** execute *)

Lemma execute_marshal_failed (u : TableFunctionExecutionUnit)
    (cc : TableFunctionCompilationContext) (dev : ExecutorDeviceType)
    (ex : Executor) (st : state) (s : stop) :
  fst (marshal_inputs dev ex (device_allocator_for dev) (input_exprs u) ([], -1) st)
    = inl s ->
  fst (execute u (Some cc) dev ex st) = inl s /\
  output_storage (snd (execute u (Some cc) dev ex st)) = output_storage st /\
  launches (snd (execute u (Some cc) dev ex st)) = launches st.
Proof.
  intros H. unfold execute, bind.
  pose proof (marshal_inputs_no_output dev ex (input_exprs u) ([], -1) st) as (Ho & Hl).
  destruct (marshal_inputs dev ex (device_allocator_for dev) (input_exprs u) ([], -1) st)
    as [[s1 | loop1] st1]; simpl in *; [| discriminate].
  injection H as ->. auto.
Qed.

(** Once the loop has completed, [execute] is its two checks and then
    the launcher for the device. *)
Lemma execute_after_marshal (u : TableFunctionExecutionUnit)
    (cc : TableFunctionCompilationContext) (dev : ExecutorDeviceType)
    (ex : Executor) (st st1 : state) (bufs : list int8_ptr) (ec : Z) :
  marshal_inputs dev ex (device_allocator_for dev) (input_exprs u) ([], -1) st
    = (inr (bufs, ec), st1) ->
  execute u (Some cc) dev ex st
  = if negb (Nat.eqb (length bufs) (length (input_exprs u)))
    then (inl (CheckFailed BufferCountMismatch), st1)
    else if ec <? 0
         then (inl (CheckFailed NoColumnInputs), st1)
         else launcher dev u cc bufs (to_size_t ec) ex st1.
Proof.
  intros H. unfold execute, bind. rewrite H. unfold CHECK.
  destruct (Nat.eqb (length bufs) (length (input_exprs u))); simpl; [| reflexivity].
  rewrite Z.geb_leb. destruct (Z.leb_spec 0 ec), (Z.ltb_spec ec 0); try lia; simpl.
  - now destruct dev.
  - reflexivity.
Qed.

(** What a launcher does to the output storage and the launch record,
    by outcome. *)
Lemma launcher_outcomes (dev : ExecutorDeviceType) (u : TableFunctionExecutionUnit)
    (cc : TableFunctionCompilationContext) (bufs : list int8_ptr) (n : Z)
    (ex : Executor) (st : state) :
  let r := launcher dev u cc bufs n ex st in
  let m := multiplier_as_read u in
  let reported := reported_row_count cc dev bufs n in
  (* stopped before sizing, or by it *)
  (exists s, fst r = inl s /\
     output_storage (snd r) = output_storage st /\ launches (snd r) = launches st /\
     (s = Thrown UnsupportedOutputPolicy -> m = 0)) \/
  (* sized: the output storage holds the allocated row count *)
  (m <> 0 /\
   output_storage (snd r) = output_storage st ++ [(dev, to_size_t (m * n))] /\
   ((exists s, fst r = inl s /\ s <> Thrown UnsupportedOutputPolicy) \/
    (invoked (launcher dev u cc bufs n ex) st = true /\
     exists rs, fst r = inr rs /\
       rs_allocated_rows rs = to_size_t (m * n) /\
       rs_entry_count rs
         = (if reported <? 0 then rs_allocated_rows rs else reported) /\
       (dev = CPU -> 0 <= reported)))).
Proof.
  cbv zeta. destruct dev; unfold launcher.
  - (* CPU *)
    destruct bufs as [| b bufs'] eqn:Hb.
    { left. exists (CheckFailed NullByteStream). rewrite launchCpuCode_empty. simpl.
      repeat split; auto. discriminate. }
    rewrite <- Hb. assert (Hne : bufs <> []) by (rewrite Hb; discriminate). clear Hb.
    destruct (get_output_row_count_cases u n st) as [(Hnz & Hg) | (Hz & Hg)].
    + right. split; [exact Hnz |].
      destruct (getGroupByBuffersPtr ex) eqn:Hgb.
      2:{ rewrite (launchCpuCode_without_buffers u cc bufs n ex st _ Hne Hg Hgb). simpl.
          split; [reflexivity |]. left. eexists. split; [reflexivity | discriminate]. }
      destruct (getFuncPtr cc bufs (to_int64 n) (-1)) as [err k] eqn:Hf.
      rewrite (launchCpuCode_launched u cc bufs n ex st _ err k Hne Hg Hgb Hf).
      unfold invoked.
      rewrite (launchCpuCode_launched u cc bufs n ex st _ err k Hne Hg Hgb Hf).
      simpl. split; [reflexivity |].
      destruct (negb (to_int32 err =? 0)).
      { left. eexists. split; [reflexivity | discriminate]. }
      destruct (Z.ltb_spec (to_int64 k) 0).
      { left. eexists. split; [reflexivity | discriminate]. }
      right. split.
      { rewrite length_app. simpl. apply Nat.ltb_lt. lia. }
      eexists. split; [reflexivity |]. simpl. split; [reflexivity |].
      unfold reported_row_count. rewrite Hf. simpl.
      destruct (Z.ltb_spec (to_int64 k) 0); [lia |]. split; [| intros _; lia].
      apply to_size_t_small. pose proof (to_int64_nonneg_range k). lia.
    + left. exists (Thrown UnsupportedOutputPolicy).
      rewrite (launchCpuCode_sizing_failed u cc bufs n ex st _ Hne Hg). simpl. auto.
  - (* GPU *)
    destruct (HAVE_CUDA ex) eqn:Hcuda.
    2:{ left. exists Unreachable. rewrite launchGpuCode_without_cuda by exact Hcuda.
        simpl. repeat split; auto. discriminate. }
    destruct (get_output_row_count_cases u n st) as [(Hnz & _) | (Hz & _)].
    + right. split; [exact Hnz |].
      destruct (launchGpuCode_sized u cc bufs n _ ex st Hcuda eq_refl Hnz) as (Ho & Hk).
      split; [exact Ho |]. unfold invoked, reported_row_count.
      destruct (getGroupByBuffersPtr ex).
      2:{ destruct Hk as (Hr & _). left. eexists. split; [exact Hr | discriminate]. }
      destruct (getGpuCode cc) as [cu_func |].
      * destruct Hk as (Hl & Hr). rewrite Hr, Hl. cbv zeta.
        destruct (fst (cu_func bufs n (-1)) =? 0).
        2:{ left. eexists. split; [reflexivity | discriminate]. }
        right. split.
        { rewrite length_app. simpl. apply Nat.ltb_lt. lia. }
        eexists. split; [reflexivity |]. simpl. split; [reflexivity |].
        split; [| discriminate].
        pose proof (to_size_t_range (multiplier_as_read u * n)) as Ha.
        destruct (Z.ltb_spec (to_int64 (snd (cu_func bufs n (-1)))) 0) as [Hneg | Hpos].
        -- now apply to_size_t_to_int64.
        -- apply to_size_t_small.
           pose proof (to_int64_nonneg_range (snd (cu_func bufs n (-1)))). lia.
      * destruct Hk as (Hr & Hl). left. eexists. split; [exact Hr | discriminate].
    + left. exists (Thrown UnsupportedOutputPolicy).
      destruct (launchGpuCode_sizing_failed u cc bufs n ex st Hcuda Hz)
        as (Hr & Ho & Hl & _). auto.
Qed.

(* ================================================================== *)
(** * The claims *)

(** C1 (as amended). For every execution unit whose row multiplier is
    present and non-zero, the allocated output row count is the multiplier
    times the input element count in [size_t] arithmetic, that is, reduced
    modulo 2^64: it is exactly the product whenever the product is below
    2^64.  This is the row count the output storage is allocated with on
    the CPU path and on the GPU path alike. *)
Theorem allocated_row_count_is_wrapped_product
    (u : TableFunctionExecutionUnit) (m n : Z) (st : state) :
  output_buffer_multiplier u = Some m -> m <> 0 ->
  get_output_row_count u n st = (inr ((m * n) mod 2 ^ 64), st) /\
  (0 <= m * n < 2 ^ 64 -> get_output_row_count u n st = (inr (m * n), st)) /\
  (forall cc b bufs ex,
     output_storage (snd (launchCpuCode u cc (b :: bufs) n ex st))
       = output_storage st ++ [(CPU, (m * n) mod 2 ^ 64)]) /\
  (forall cc bufs ex, HAVE_CUDA ex = true ->
     output_storage (snd (launchGpuCode u cc bufs n 0 ex st))
       = output_storage st ++ [(GPU, (m * n) mod 2 ^ 64)]).
Proof.
  intros Hm Hnz.
  pose proof (get_output_row_count_present u m n st Hm Hnz) as Hg.
  unfold to_size_t, to_unsigned in Hg.
  split; [exact Hg |]. split; [| split].
  - intros Hfit. rewrite Hg. now rewrite Z.mod_small.
  - intros cc b bufs ex.
    assert (Hne : b :: bufs <> []) by discriminate.
    destruct (getGroupByBuffersPtr ex) eqn:Hgb.
    + destruct (getFuncPtr cc (b :: bufs) (to_int64 n) (-1)) as [err k] eqn:Hf.
      now rewrite (launchCpuCode_launched u cc (b :: bufs) n ex st _ err k Hne Hg Hgb Hf).
    + now rewrite (launchCpuCode_without_buffers u cc (b :: bufs) n ex st _ Hne Hg Hgb).
  - intros cc bufs ex Hcuda.
    now destruct (launchGpuCode_sized u cc bufs n m ex st Hcuda
                    (multiplier_as_read_present u m Hm) Hnz) as (Ho & _).
Qed.

(** C2 (as amended). For every execution that returns a result, on CPU
    or GPU, the storage was allocated with the row count the sizing gave,
    and the row count of the returned result set is the count the compiled
    function left in the output-row-count cell (never negative on CPU; on
    GPU the allocated count when that value is negative).  No clamping is
    performed: the returned row count is within the allocated row count
    exactly when the count the compiled function left is. *)
Theorem returned_row_count_bounded_iff_reported_bounded
    (u : TableFunctionExecutionUnit) (cc : TableFunctionCompilationContext)
    (dev : ExecutorDeviceType) (ex : Executor) (st st' : state) (rs : ResultSet) :
  execute u (Some cc) dev ex st = (inr rs, st') ->
  exists bufs ec st1,
    marshal_inputs dev ex (device_allocator_for dev) (input_exprs u) ([], -1) st
      = (inr (bufs, ec), st1) /\
    let reported := reported_row_count cc dev bufs (to_size_t ec) in
    get_output_row_count u (to_size_t ec) st1 = (inr (rs_allocated_rows rs), st1) /\
    In (dev, rs_allocated_rows rs) (output_storage st') /\
    rs_entry_count rs = (if reported <? 0 then rs_allocated_rows rs else reported) /\
    (dev = CPU -> 0 <= reported) /\
    (rs_entry_count rs <= rs_allocated_rows rs <-> reported <= rs_allocated_rows rs).
Proof.
  intros H.
  destruct (marshal_inputs dev ex (device_allocator_for dev) (input_exprs u) ([], -1) st)
    as [[s | [bufs ec]] st1] eqn:Hmar.
  - destruct (execute_marshal_failed u cc dev ex st s) as (Hs & _);
      [now rewrite Hmar |]. rewrite H in Hs. discriminate.
  - rewrite (execute_after_marshal u cc dev ex st st1 bufs ec Hmar) in H.
    destruct (negb (Nat.eqb (length bufs) (length (input_exprs u)))); [discriminate |].
    destruct (ec <? 0); [discriminate |].
    exists bufs, ec, st1. split; [reflexivity |].
    pose proof (launcher_outcomes dev u cc bufs (to_size_t ec) ex st1) as Hl.
    cbv zeta in Hl. rewrite H in Hl. simpl in Hl.
    destruct Hl as [(s & Hs & _)
                   | (Hnz & Ho & [(s & Hs & _) | (_ & rs' & Hrs & Ha & He & Hcpu)])];
      try discriminate.
    injection Hrs as <-. cbv zeta.
    split; [rewrite Ha; now apply get_output_row_count_sized |].
    split; [rewrite Ho, Ha; apply in_or_app; right; now left |].
    split; [exact He |]. split; [exact Hcpu |].
    rewrite He.
    pose proof (to_size_t_range (multiplier_as_read u * to_size_t ec)) as Hrange.
    rewrite <- Ha in Hrange.
    destruct (Z.ltb_spec (reported_row_count cc dev bufs (to_size_t ec)) 0); lia.
Qed.

(** C4 (as amended). When the inputs contain two column references whose
    fetched element counts differ, and up to the later of the two every
    column count fits [ssize_t] and every constant is of a supported type,
    the invocation fails at the cardinality check, and it does so before
    any output storage is allocated and before the compiled function is
    launched. *)
Theorem differing_column_counts_fail_cardinality_check
    (u : TableFunctionExecutionUnit) (cc : TableFunctionCompilationContext)
    (dev : ExecutorDeviceType) (ex : Executor) (st : state)
    (l post : list Expr) (a b : nat) :
  input_exprs u = l ++ post ->
  In (ColumnVar a) l -> In (ColumnVar b) l ->
  getOneColumnFragment ex a (memory_level_of dev)
    <> getOneColumnFragment ex b (memory_level_of dev) ->
  Forall (marshalable dev ex) l ->
  fst (execute u (Some cc) dev ex st) = inl (CheckFailed InconsistentInputCardinality) /\
  output_storage (snd (execute u (Some cc) dev ex st)) = output_storage st /\
  launches (snd (execute u (Some cc) dev ex st)) = launches st.
Proof.
  intros Hin Ha Hb Hdiff Hall.
  apply execute_marshal_failed. rewrite Hin, marshal_inputs_app.
  destruct (marshal_inputs dev ex (device_allocator_for dev) l ([], -1) st)
    as [[s | [bufs ec]] st1] eqn:Hmar; simpl.
  - f_equal. apply (marshal_inputs_failure dev ex l ([], -1) st s Hall).
    now rewrite Hmar.
  - exfalso. apply Hdiff.
    destruct (marshal_inputs_columns_agree dev ex l [] bufs (-1) ec st Hall) as (_ & Hcols);
      [now rewrite Hmar |].
    rewrite (Hcols a Ha), (Hcols b Hb). reflexivity.
Qed.

(** Whenever the invocation fails with UnsupportedOutputPolicy, the input
    marshaling had completed and passed both of its checks, the guard of
    the sizing read a zero, and the failure comes before any output storage
    is allocated and before the compiled function is launched (on CPU and
    on GPU). *)
Lemma unsupported_output_policy_precedes_output_allocation
    (u : TableFunctionExecutionUnit) (cc : TableFunctionCompilationContext)
    (dev : ExecutorDeviceType) (ex : Executor) (st : state) :
  fst (execute u (Some cc) dev ex st) = inl (Thrown UnsupportedOutputPolicy) ->
  multiplier_as_read u = 0 /\
  output_storage (snd (execute u (Some cc) dev ex st)) = output_storage st /\
  launches (snd (execute u (Some cc) dev ex st)) = launches st /\
  exists bufs ec,
    fst (marshal_inputs dev ex (device_allocator_for dev) (input_exprs u) ([], -1) st)
      = inr (bufs, ec) /\
    length bufs = length (input_exprs u) /\ 0 <= ec.
Proof.
  intros H.
  pose proof (marshal_inputs_no_output dev ex (input_exprs u) ([], -1) st) as Hno.
  cbv zeta in Hno.
  destruct (marshal_inputs dev ex (device_allocator_for dev) (input_exprs u) ([], -1) st)
    as [[s | [bufs ec]] st1] eqn:Hmar.
  - exfalso.
    destruct (execute_marshal_failed u cc dev ex st s) as (Hs & _); [now rewrite Hmar |].
    rewrite H in Hs. injection Hs as <-.
    destruct (marshal_inputs_failure_kinds dev ex (input_exprs u) ([], -1) st
                (Thrown UnsupportedOutputPolicy)) as [Hk | [Hk | (d & Hk)]];
      [now rewrite Hmar | discriminate ..].
  - simpl in Hno. destruct Hno as (Ho1 & Hl1).
    rewrite (execute_after_marshal u cc dev ex st st1 bufs ec Hmar) in *.
    destruct (Nat.eqb_spec (length bufs) (length (input_exprs u))) as [Hlen |];
      simpl in *; [| discriminate].
    destruct (Z.ltb_spec ec 0); [discriminate |].
    pose proof (launcher_outcomes dev u cc bufs (to_size_t ec) ex st1) as Hl.
    cbv zeta in Hl.
    destruct Hl as [(s & Hs & Ho & Hla & Hz)
                   | (_ & _ & [(s & Hs & Hne) | (_ & rs & Hrs & _)])].
    + rewrite H in Hs. injection Hs as <-.
      rewrite Ho, Hla. repeat split; try congruence; auto. exists bufs, ec. auto.
    + rewrite H in Hs. injection Hs as <-. now contradiction Hne.
    + rewrite H in Hrs. discriminate.
Qed.

(** C6. On the GPU path, when the kernel was launched, the launch
    succeeded and the output-row-count value read back from the device is
    negative, the launcher returns a result whose row count is the
    allocated row count, the one the sizing gave and the output storage was
    allocated with; the CPU launcher, called with a function that succeeds
    and leaves the same value, fails with OutputCardinalityNotSet
    instead. *)
Theorem gpu_negative_row_count_falls_back_to_allocated
    (u : TableFunctionExecutionUnit) (cc : TableFunctionCompilationContext)
    (bufs : list int8_ptr) (n : Z) (ex : Executor) (st : state)
    (cu_func : table_function) (v : Z) :
  getGpuCode cc = Some cu_func ->
  invoked (launchGpuCode u cc bufs n 0 ex) st = true ->
  cu_func bufs n (-1) = (0, v) ->
  to_int64 v < 0 ->
  (exists rs allocated,
     fst (launchGpuCode u cc bufs n 0 ex st) = inr rs /\
     get_output_row_count u n st = (inr allocated, st) /\
     rs_allocated_rows rs = allocated /\
     rs_entry_count rs = allocated /\
     output_storage (snd (launchGpuCode u cc bufs n 0 ex st))
       = output_storage st ++ [(GPU, allocated)] /\
     launches (snd (launchGpuCode u cc bufs n 0 ex st)) = launches st ++ [GPU]) /\
  (invoked (launchCpuCode u cc bufs n ex) st = true ->
   getFuncPtr cc bufs (to_int64 n) (-1) = (0, v) ->
   fst (launchCpuCode u cc bufs n ex st) = inl (Thrown OutputCardinalityNotSet)).
Proof.
  intros Hcode Hinv Hrun Hneg. split.
  - destruct (HAVE_CUDA ex) eqn:Hcuda.
    2:{ unfold invoked in Hinv. rewrite launchGpuCode_without_cuda in Hinv by exact Hcuda.
        simpl in Hinv. rewrite Nat.ltb_irrefl in Hinv. discriminate. }
    destruct (get_output_row_count_cases u n st) as [(Hnz & Hg) | (Hz & _)].
    + destruct (launchGpuCode_sized u cc bufs n _ ex st Hcuda eq_refl Hnz) as (Ho & Hk).
      destruct (getGroupByBuffersPtr ex).
      2:{ destruct Hk as (_ & Hl). unfold invoked in Hinv.
          rewrite Hl, Nat.ltb_irrefl in Hinv. discriminate. }
      rewrite Hcode in Hk. destruct Hk as (Hl & Hr). rewrite Hrun in Hr. simpl in Hr.
      apply Z.ltb_lt in Hneg. rewrite Hneg in Hr.
      eexists. eexists. split; [exact Hr |]. split; [exact Hg |]. simpl.
      split; [reflexivity |]. split; [| split; [exact Ho | exact Hl]].
      apply to_size_t_to_int64, to_size_t_range.
    + destruct (launchGpuCode_sizing_failed u cc bufs n ex st Hcuda Hz)
        as (_ & _ & Hl & _).
      unfold invoked in Hinv. rewrite Hl, Nat.ltb_irrefl in Hinv. discriminate.
  - intros Hinv' Hf. unfold invoked in Hinv'.
    destruct bufs as [| b bufs'] eqn:Hb.
    { rewrite launchCpuCode_empty in Hinv'. simpl in Hinv'.
      rewrite Nat.ltb_irrefl in Hinv'. discriminate. }
    rewrite <- Hb in *. assert (Hne : bufs <> []) by (rewrite Hb; discriminate).
    destruct (get_output_row_count_cases u n st) as [(Hnz & Hg) | (Hz & Hg)].
    + destruct (getGroupByBuffersPtr ex) eqn:Hgb.
      2:{ rewrite (launchCpuCode_without_buffers u cc bufs n ex st _ Hne Hg Hgb) in Hinv'.
          simpl in Hinv'. rewrite Nat.ltb_irrefl in Hinv'. discriminate. }
      rewrite (launchCpuCode_launched u cc bufs n ex st _ 0 v Hne Hg Hgb Hf). simpl.
      apply Z.ltb_lt in Hneg. now rewrite Hneg.
    + rewrite (launchCpuCode_sizing_failed u cc bufs n ex st _ Hne Hg) in Hinv'.
      simpl in Hinv'. rewrite Nat.ltb_irrefl in Hinv'. discriminate.
Qed.

(** C7. On the CPU path, when the compiled function was called and
    returned success (zero): if the output-row-count out-parameter is
    negative afterwards, the launcher fails with OutputCardinalityNotSet;
    if it is non-negative, the launcher returns a result whose row count is
    exactly that value, whatever row count the storage was allocated
    with. *)
Theorem cpu_row_count_is_the_reported_one
    (u : TableFunctionExecutionUnit) (cc : TableFunctionCompilationContext)
    (bufs : list int8_ptr) (n : Z) (ex : Executor) (st : state) (err k : Z) :
  invoked (launchCpuCode u cc bufs n ex) st = true ->
  getFuncPtr cc bufs (to_int64 n) (-1) = (err, k) ->
  to_int32 err = 0 ->
  (to_int64 k < 0 ->
   fst (launchCpuCode u cc bufs n ex st) = inl (Thrown OutputCardinalityNotSet)) /\
  (0 <= to_int64 k ->
   exists rs allocated,
     fst (launchCpuCode u cc bufs n ex st) = inr rs /\
     rs_entry_count rs = to_int64 k /\
     rs_allocated_rows rs = allocated /\
     get_output_row_count u n st = (inr allocated, st) /\
     output_storage (snd (launchCpuCode u cc bufs n ex st))
       = output_storage st ++ [(CPU, allocated)]).
Proof.
  intros Hinv Hf Herr. unfold invoked in Hinv.
  destruct bufs as [| b bufs'] eqn:Hb.
  { rewrite launchCpuCode_empty in Hinv. simpl in Hinv.
    rewrite Nat.ltb_irrefl in Hinv. discriminate. }
  rewrite <- Hb in *. assert (Hne : bufs <> []) by (rewrite Hb; discriminate).
  destruct (get_output_row_count_cases u n st) as [(Hnz & Hg) | (Hz & Hg)].
  - destruct (getGroupByBuffersPtr ex) eqn:Hgb.
    2:{ rewrite (launchCpuCode_without_buffers u cc bufs n ex st _ Hne Hg Hgb) in Hinv.
        simpl in Hinv. rewrite Nat.ltb_irrefl in Hinv. discriminate. }
    rewrite (launchCpuCode_launched u cc bufs n ex st _ err k Hne Hg Hgb Hf).
    rewrite Herr. simpl. split; intros Hk.
    + apply Z.ltb_lt in Hk. now rewrite Hk.
    + destruct (Z.ltb_spec (to_int64 k) 0); [lia |].
      eexists. eexists. split; [reflexivity |]. simpl.
      split; [| repeat split; auto].
      apply to_size_t_small. pose proof (to_int64_nonneg_range k). lia.
  - rewrite (launchCpuCode_sizing_failed u cc bufs n ex st _ Hne Hg) in Hinv.
    simpl in Hinv. rewrite Nat.ltb_irrefl in Hinv. discriminate.
Qed.

Lemma some_column_is_buffered (l : list Expr) :
  forallb (fun e => negb (is_column e)) l = false ->
  (0 < length (filter buffered l))%nat.
Proof.
  induction l as [| e l IH]; [discriminate |]. simpl.
  destruct e; simpl; auto; lia.
Qed.

(** An element count can only have been established by a column, whose
    buffer was pushed. *)
Lemma marshal_inputs_established (dev : ExecutorDeviceType) (ex : Executor)
    (l : list Expr) (bufs : list int8_ptr) (ec : Z) (st : state) :
  fst (marshal_inputs dev ex (device_allocator_for dev) l ([], -1) st) = inr (bufs, ec) ->
  0 <= ec -> bufs <> [].
Proof.
  intros H Hec Hnil.
  destruct (forallb (fun e => negb (is_column e)) l) eqn:Hcol.
  - pose proof (marshal_inputs_no_column dev ex l [] bufs (-1) ec st Hcol H). lia.
  - pose proof (marshal_inputs_length dev ex l [] bufs (-1) ec st H) as Hlen.
    apply some_column_is_buffered in Hcol. subst bufs. simpl in Hlen. lia.
Qed.

Lemma marshal_inputs_completed_supported (dev : ExecutorDeviceType) (ex : Executor)
    (l : list Expr) (loop loop' : list int8_ptr * Z) (st : state) :
  fst (marshal_inputs dev ex (device_allocator_for dev) l loop st) = inr loop' ->
  forall ti d, In (Constant ti d) l -> supported_literal ti = true.
Proof.
  revert loop st. induction l as [| e l IH]; intros [bufs ec] st H ti d Hin; [destruct Hin |].
  rewrite marshal_inputs_cons in H.
  pose proof (marshal_input_cases dev ex bufs ec e st) as (_ & _ & Hc).
  destruct (marshal_input dev ex (device_allocator_for dev) (bufs, ec) e st)
    as [[s | loop1] st1]; simpl in *; [discriminate |].
  destruct Hin as [-> | Hin]; [| eauto].
  destruct (supported_literal ti); [reflexivity | discriminate].
Qed.

Lemma filter_buffered_length (l : list Expr) :
  (length (filter buffered l) <= length l)%nat /\
  (In OtherExpr l -> (length (filter buffered l) < length l)%nat) /\
  (length (filter buffered l) = length l -> ~ In OtherExpr l).
Proof.
  induction l as [| e l (IHle & IHlt & IHeq)]; simpl.
  - repeat split; auto. intros [].
  - destruct e; simpl; repeat split; try lia.
    + intros [H | H]; [discriminate | apply IHlt in H; lia].
    + intros H [H' | H']; [discriminate | apply IHeq; auto].
    + intros [H | H]; [discriminate | apply IHlt in H; lia].
    + intros H [H' | H']; [discriminate | apply IHeq; auto].
Qed.

Lemma supported_constants_characterised (l : list Expr) :
  forallb is_supported_constant l = true <->
  (forall e, In e l ->
     is_column e = false /\ e <> OtherExpr /\
     forall ti d, e = Constant ti d -> supported_literal ti = true).
Proof.
  rewrite forallb_forall. split; intros H e He; specialize (H e He).
  - destruct e as [column | ti d |]; try discriminate.
    repeat split; [discriminate |]. intros ? ? [= <- <-]. exact H.
  - destruct H as (Hc & Ho & Hs). destruct e as [column | ti d |];
      [discriminate | simpl; eauto | contradiction].
Qed.

(** C8 (as amended). When the input expressions contain no column
    reference, the invocation fails, and it does so before any output
    storage is allocated and before any launch.  The failure is
    NoColumnInputs exactly when every input expression is a constant of a
    supported type (this includes the empty input list); otherwise an
    earlier failure of the marshaling takes precedence. *)
Theorem no_column_input_fails_before_launch
    (u : TableFunctionExecutionUnit) (cc : TableFunctionCompilationContext)
    (dev : ExecutorDeviceType) (ex : Executor) (st : state) :
  forallb (fun e => negb (is_column e)) (input_exprs u) = true ->
  (exists s,
     fst (execute u (Some cc) dev ex st) = inl s /\
     (s = CheckFailed NoColumnInputs <->
      forallb is_supported_constant (input_exprs u) = true)) /\
  output_storage (snd (execute u (Some cc) dev ex st)) = output_storage st /\
  launches (snd (execute u (Some cc) dev ex st)) = launches st.
Proof.
  intros Hnc.
  pose proof (marshal_inputs_no_output dev ex (input_exprs u) ([], -1) st) as Hno.
  cbv zeta in Hno.
  destruct (marshal_inputs dev ex (device_allocator_for dev) (input_exprs u) ([], -1) st)
    as [[s | [bufs ec]] st1] eqn:Hmar.
  - destruct (execute_marshal_failed u cc dev ex st s) as (Hs & Ho & Hl);
      [now rewrite Hmar |].
    split; [| auto]. exists s. split; [exact Hs |]. split.
    + intros ->.
      destruct (marshal_inputs_failure_kinds dev ex (input_exprs u) ([], -1) st
                  (CheckFailed NoColumnInputs)) as [Hk | [Hk | (d & Hk)]];
        [now rewrite Hmar | discriminate ..].
    + intros Hall.
      destruct (marshal_inputs_constants dev ex (input_exprs u) ([], -1) st Hall)
        as (loop' & Hok).
      rewrite Hmar in Hok. discriminate.
  - assert (Hec : ec = -1).
    { apply (marshal_inputs_no_column dev ex (input_exprs u) [] bufs (-1) ec st Hnc).
      now rewrite Hmar. }
    assert (Hlen : length bufs = length (filter buffered (input_exprs u))).
    { apply (marshal_inputs_length dev ex (input_exprs u) [] bufs (-1) ec st).
      now rewrite Hmar. }
    assert (Hsup : forall ti d, In (Constant ti d) (input_exprs u) ->
                                supported_literal ti = true).
    { apply (marshal_inputs_completed_supported dev ex (input_exprs u) ([], -1) (bufs, ec) st).
      now rewrite Hmar. }
    rewrite (execute_after_marshal u cc dev ex st st1 bufs ec Hmar).
    simpl in Hno. subst ec. change (-1 <? 0) with true.
    destruct (filter_buffered_length (input_exprs u)) as (_ & Hlt & Heq).
    destruct (Nat.eqb_spec (length bufs) (length (input_exprs u))) as [Hl | Hl]; simpl.
    + split; [| auto]. eexists. split; [reflexivity |]. split; [intros _ | reflexivity].
      apply supported_constants_characterised. intros e He. repeat split.
      * rewrite forallb_forall in Hnc. specialize (Hnc e He).
        now destruct (is_column e).
      * intros ->. apply Heq; [congruence | exact He].
      * intros ti d ->. eauto.
    + split; [| auto]. eexists. split; [reflexivity |]. split; [discriminate |].
      intros Hall. exfalso. apply Hl. rewrite Hlen.
      clear - Hall. induction (input_exprs u) as [| e l IH]; [reflexivity |].
      simpl in Hall. apply andb_prop in Hall as (He & Hall).
      destruct e; try discriminate. simpl. f_equal. auto.
Qed.

(** C9 (as amended). When the row multiplier is present but zero and the
    inputs have marshaled and passed both checks (on GPU, in a build with
    CUDA), the invocation raises UnsupportedOutputPolicy, before any output
    storage is allocated and before any launch: a declared multiplier of
    zero is rejected rather than producing a zero-row allocation.  The
    guard tests the dereferenced value, not the optional's presence: the
    sizing answers the same for any two units that dereference to the same
    value, and an absent multiplier is dereferenced untested, which reads
    what its storage holds. *)
Theorem zero_multiplier_raises_unsupported_output_policy
    (u : TableFunctionExecutionUnit) (cc : TableFunctionCompilationContext)
    (dev : ExecutorDeviceType) (ex : Executor) (st st1 : state)
    (bufs : list int8_ptr) (ec : Z) :
  output_buffer_multiplier u = Some 0 ->
  marshal_inputs dev ex (device_allocator_for dev) (input_exprs u) ([], -1) st
    = (inr (bufs, ec), st1) ->
  length bufs = length (input_exprs u) -> 0 <= ec ->
  (dev = GPU -> HAVE_CUDA ex = true) ->
  (fst (execute u (Some cc) dev ex st) = inl (Thrown UnsupportedOutputPolicy) /\
   output_storage (snd (execute u (Some cc) dev ex st)) = output_storage st /\
   launches (snd (execute u (Some cc) dev ex st)) = launches st) /\
  (forall u1 u2 n st0,
     multiplier_as_read u1 = multiplier_as_read u2 ->
     get_output_row_count u1 n st0 = get_output_row_count u2 n st0) /\
  (forall u0 n st0,
     output_buffer_multiplier u0 = None ->
     get_output_row_count u0 n st0
     = (if disengaged_multiplier u0 =? 0
        then inl (Thrown UnsupportedOutputPolicy)
        else inr (to_size_t (disengaged_multiplier u0 * n)), st0)).
Proof.
  intros Hm Hmar Hlen Hec Hcuda. split; [| split].
  - pose proof (marshal_inputs_no_output dev ex (input_exprs u) ([], -1) st) as Hno.
    cbv zeta in Hno. rewrite Hmar in Hno. simpl in Hno. destruct Hno as (Ho1 & Hl1).
    rewrite (execute_after_marshal u cc dev ex st st1 bufs ec Hmar).
    rewrite Hlen, Nat.eqb_refl. simpl negb. cbv iota.
    destruct (Z.ltb_spec ec 0); [lia |].
    assert (Hne : bufs <> []).
    { apply (marshal_inputs_established dev ex (input_exprs u) bufs ec st);
        [now rewrite Hmar | lia]. }
    pose proof (multiplier_as_read_present u 0 Hm) as Hz.
    destruct dev; unfold launcher.
    + rewrite (launchCpuCode_sizing_failed u cc bufs (to_size_t ec) ex st1
                 (Thrown UnsupportedOutputPolicy) Hne
                 (get_output_row_count_rejected u _ st1 Hz)).
      simpl. auto.
    + destruct (launchGpuCode_sizing_failed u cc bufs (to_size_t ec) ex st1
                  (Hcuda eq_refl) Hz) as (Hr & Ho & Hl & _).
      rewrite Hr, Ho, Hl. auto.
  - intros u1 u2 n st0 Heq. now rewrite !get_output_row_count_read, Heq.
  - intros u0 n st0 Hnone.
    now rewrite get_output_row_count_read, (multiplier_as_read_absent u0 Hnone).
Qed.

(** C10 (as amended). An input expression that is neither a column
    reference nor a constant gets no buffer and raises nothing in the loop
    body.  An invocation whose inputs contain one never returns a result
    and never launches; when its marshaling loop runs to completion, it
    aborts at the internal check that the buffer count equals the input
    expression count, which is not a user-facing error. *)
Theorem other_expression_kind_fails_buffer_count_check
    (u : TableFunctionExecutionUnit) (cc : TableFunctionCompilationContext)
    (dev : ExecutorDeviceType) (ex : Executor) (st : state) :
  In OtherExpr (input_exprs u) ->
  (forall loop st0,
     marshal_input dev ex (device_allocator_for dev) loop OtherExpr st0 = (inr loop, st0)) /\
  (exists s,
     fst (execute u (Some cc) dev ex st) = inl s /\
     (forall loop',
        fst (marshal_inputs dev ex (device_allocator_for dev) (input_exprs u) ([], -1) st)
          = inr loop' ->
        s = CheckFailed BufferCountMismatch /\ user_facing s = false)) /\
  output_storage (snd (execute u (Some cc) dev ex st)) = output_storage st /\
  launches (snd (execute u (Some cc) dev ex st)) = launches st.
Proof.
  intros Hin. split; [intros; apply marshal_input_other |].
  pose proof (marshal_inputs_no_output dev ex (input_exprs u) ([], -1) st) as Hno.
  cbv zeta in Hno.
  destruct (marshal_inputs dev ex (device_allocator_for dev) (input_exprs u) ([], -1) st)
    as [[s | [bufs ec]] st1] eqn:Hmar.
  - destruct (execute_marshal_failed u cc dev ex st s) as (Hs & Ho & Hl);
      [now rewrite Hmar |].
    split; [| auto]. exists s. split; [exact Hs |]. intros loop' H. discriminate.
  - assert (Hlen : length bufs = length (filter buffered (input_exprs u))).
    { apply (marshal_inputs_length dev ex (input_exprs u) [] bufs (-1) ec st).
      now rewrite Hmar. }
    destruct (filter_buffered_length (input_exprs u)) as (_ & Hlt & _).
    specialize (Hlt Hin).
    rewrite (execute_after_marshal u cc dev ex st st1 bufs ec Hmar).
    destruct (Nat.eqb_spec (length bufs) (length (input_exprs u))) as [Hl | Hl]; [lia |].
    simpl in *. split; [| auto]. eexists. split; [reflexivity |]. auto.
Qed.

(* ================================================================== *)
(** * The claims at concrete inputs *)

Import Examples.

(** ** Where the claims as first stated fail *)

(** C1 as stated fails.  With the multiplier present and equal to zero
    over a four-row column, no row count is allocated at all: the
    invocation stops with UnsupportedOutputPolicy and the output storage is
    empty.  With the multiplier 2^62 over the same column the product is
    2^64 and the output storage is allocated with 0 rows. *)
Lemma allocated_row_count_counterexample :
  (let r := run (execute (unit_of [ColumnVar 0] (Some 0))
                         (Some (compiled (reports 4))) CPU executor) in
   fst r = inl (Thrown UnsupportedOutputPolicy) /\ output_storage (snd r) = []) /\
  (let r := run (execute (unit_of [ColumnVar 0] (Some (2 ^ 62)))
                         (Some (compiled (reports 4))) GPU executor) in
   output_storage (snd r) = [(GPU, 0)] /\ 2 ^ 62 * 4 <> 0).
Proof. repeat split; try reflexivity. discriminate. Qed.

(** C2 as stated fails.  A four-row column with multiplier 2 allocates 8
    rows; a compiled function that reports 100 rows makes the returned
    result set carry 100 rows. *)
Lemma returned_row_count_counterexample :
  exists rs,
    fst (run (execute (unit_of [ColumnVar 0] (Some 2))
                      (Some (compiled (reports 100))) CPU executor)) = inr rs /\
    rs_allocated_rows rs = 8 /\ rs_entry_count rs = 100 /\
    ~ rs_entry_count rs <= rs_allocated_rows rs.
Proof.
  eexists. split; [reflexivity |]. repeat split.
  vm_compute. intros H. now apply H.
Qed.

(** C4 as stated fails.  Columns 0 and 1 have 4 and 5 elements; with a
    text constant between them the invocation stops at the constant with
    UnsupportedLiteralType, not at the cardinality check. *)
Lemma differing_column_counts_counterexample :
  getOneColumnFragment executor 0 CPU_LEVEL <> getOneColumnFragment executor 1 CPU_LEVEL /\
  fst (run (execute (unit_of [ColumnVar 0; Constant ti_text (mkDatum 7); ColumnVar 1]
                             (Some 2))
                    (Some (compiled (reports 4))) CPU executor))
    = inl (Thrown (UnsupportedLiteralType (mkDatum 7))).
Proof. split; [discriminate | reflexivity]. Qed.

(** Failures of the marshaling come before the sizing: on GPU, an
    execution unit without row multiplier whose only input is a 32-bit
    integer constant fails with NoColumnInputs, and by then a device slot
    has been allocated for the literal. *)
Example marshaling_failures_come_before_sizing :
  let u := unit_of [Constant (ti_integer 32) (mkDatum 7)] None in
  let r := run (execute u (Some (compiled (reports 4))) GPU executor) in
  output_buffer_multiplier u = None /\
  fst r = inl (CheckFailed NoColumnInputs) /\
  fst r <> inl (Thrown UnsupportedOutputPolicy) /\
  device_memory (snd r) = [DeviceBytes [7; 0; 0; 0; 170; 170; 170; 170]].
Proof. repeat split; try reflexivity. discriminate. Qed.

(** C5. The code does not do what the claim says.  An execution unit
    without row multiplier is not tested for presence: the guard reads the
    optional's storage.  Over a four-row column, with a storage holding 3
    the invocation allocates 12 rows, calls the compiled function and
    returns a result; it raises UnsupportedOutputPolicy only when the
    storage happens to hold zero. *)
Lemma absent_multiplier_is_not_rejected :
  let absent storage := mkExeUnit [ColumnVar 0] [0%nat] None storage in
  let r := run (execute (absent 3) (Some (compiled (reports 4))) CPU executor) in
  output_buffer_multiplier (absent 3) = None /\
  fst r = inr (mkResultSet CPU [(8, 8)] 12 4) /\
  output_storage (snd r) = [(CPU, 12)] /\ launches (snd r) = [CPU] /\
  fst (run (execute (absent 0) (Some (compiled (reports 4))) CPU executor))
    = inl (Thrown UnsupportedOutputPolicy).
Proof. repeat split. Qed.

(** C8 as stated fails.  With a text constant as the only input there is
    no column reference, and the invocation fails with
    UnsupportedLiteralType, not NoColumnInputs. *)
Lemma no_column_input_counterexample :
  let u := unit_of [Constant ti_text (mkDatum 7)] (Some 2) in
  forallb (fun e => negb (is_column e)) (input_exprs u) = true /\
  fst (run (execute u (Some (compiled (reports 4))) CPU executor))
    = inl (Thrown (UnsupportedLiteralType (mkDatum 7))).
Proof. split; reflexivity. Qed.

(** C10 as stated fails.  With an expression of another kind followed by
    a text constant, the invocation aborts with UnsupportedLiteralType, a
    user-facing error, and never reaches the buffer-count check. *)
Lemma other_expression_kind_counterexample :
  let u := unit_of [OtherExpr; Constant ti_text (mkDatum 7)] (Some 2) in
  In OtherExpr (input_exprs u) /\
  fst (run (execute u (Some (compiled (reports 4))) CPU executor))
    = inl (Thrown (UnsupportedLiteralType (mkDatum 7))) /\
  user_facing (Thrown (UnsupportedLiteralType (mkDatum 7))) = true.
Proof. repeat split. now left. Qed.

(** C9 as stated fails.  With the multiplier present and zero, an
    invocation without inputs fails with NoColumnInputs, and one over
    columns of 4 and 5 elements fails at the cardinality check: neither
    raises UnsupportedOutputPolicy. *)
Lemma zero_multiplier_counterexample :
  output_buffer_multiplier (unit_of [] (Some 0)) = Some 0 /\
  fst (run (execute (unit_of [] (Some 0)) (Some (compiled (reports 4))) CPU executor))
    = inl (CheckFailed NoColumnInputs) /\
  fst (run (execute (unit_of [ColumnVar 0; ColumnVar 1] (Some 0))
                    (Some (compiled (reports 4))) CPU executor))
    = inl (CheckFailed InconsistentInputCardinality).
Proof. repeat split. Qed.

(** ** The theorems at work *)

(** Multiplier 2 over a four-row column: 8 rows are allocated on both
    paths. *)
Lemma allocated_row_count_witness :
  let u := unit_of [ColumnVar 0] (Some 2) in
  let cc := compiled (reports 4) in
  get_output_row_count u 4 initial_state = (inr 8, initial_state) /\
  output_storage (snd (launchCpuCode u cc [chunk_buffer 0 CPU_LEVEL] 4 executor
                                     initial_state)) = [(CPU, 8)] /\
  output_storage (snd (launchGpuCode u cc [chunk_buffer 0 GPU_LEVEL] 4 0 executor
                                     initial_state)) = [(GPU, 8)].
Proof.
  cbv zeta.
  destruct (allocated_row_count_is_wrapped_product
              (unit_of [ColumnVar 0] (Some 2)) 2 4 initial_state
              eq_refl ltac:(lia)) as (_ & Hfit & Hcpu & Hgpu).
  split; [apply Hfit; lia |]. split.
  - apply (Hcpu (compiled (reports 4)) (chunk_buffer 0 CPU_LEVEL) [] executor).
  - apply (Hgpu (compiled (reports 4)) [chunk_buffer 0 GPU_LEVEL] executor). reflexivity.
Defined.

(** The row count of a well-behaved function (4 of 8 allocated). *)
Lemma returned_row_count_witness :
  let u := unit_of [ColumnVar 0] (Some 2) in
  let cc := compiled (reports 4) in
  exists bufs ec st1,
    marshal_inputs CPU executor (device_allocator_for CPU) (input_exprs u) ([], -1)
                   initial_state = (inr (bufs, ec), st1) /\
    let reported := reported_row_count cc CPU bufs (to_size_t ec) in
    get_output_row_count u (to_size_t ec) st1 = (inr 8, st1) /\
    In (CPU, 8) [(CPU, 8)] /\
    4 = (if reported <? 0 then 8 else reported) /\
    (CPU = CPU -> 0 <= reported) /\
    (4 <= 8 <-> reported <= 8).
Proof.
  apply (returned_row_count_bounded_iff_reported_bounded
           (unit_of [ColumnVar 0] (Some 2)) (compiled (reports 4)) CPU executor
           initial_state (mkState [] [] [0%nat] [(CPU, 8)] [CPU])
           (mkResultSet CPU [(8, 8)] 8 4)).
  reflexivity.
Defined.

(** The tinyint -1 packed on GPU: one byte [0xFF] over a slot that held
    [0xAA] everywhere. *)
Lemma literal_pack_then_read_back_witness :
  exists p st',
    create_literal_buffer t_int8 (-1) GPU executor (device_allocator_for GPU) initial_state
      = (inr p, st') /\
    length (pointee st' p) = sizeof_int64_t /\
    firstn (sizeof t_int8) (pointee st' p) = object_bytes (sizeof t_int8) (-1) /\
    literal_of_bytes t_int8 (firstn (sizeof t_int8) (pointee st' p)) = -1 /\
    skipn (sizeof t_int8) (pointee st' p)
      = skipn (sizeof t_int8) (fresh_slot GPU executor initial_state).
Proof.
  apply (literal_pack_then_read_back t_int8 (-1) GPU executor initial_state).
  unfold literal_in_range. simpl. lia.
Defined.

(** Columns of 4 and 5 elements side by side. *)
Lemma differing_column_counts_witness :
  let r := execute (unit_of [ColumnVar 0; ColumnVar 1] (Some 2))
                   (Some (compiled (reports 4))) CPU executor initial_state in
  fst r = inl (CheckFailed InconsistentInputCardinality) /\
  output_storage (snd r) = output_storage initial_state /\
  launches (snd r) = launches initial_state.
Proof.
  apply (differing_column_counts_fail_cardinality_check
           (unit_of [ColumnVar 0; ColumnVar 1] (Some 2)) (compiled (reports 4))
           CPU executor initial_state [ColumnVar 0; ColumnVar 1] [] 0%nat 1%nat).
  - reflexivity.
  - simpl. auto.
  - simpl. auto.
  - simpl. lia.
  - repeat constructor; simpl; lia.
Defined.

(** A kernel that never writes the row count, multiplier 2, four input
    rows: the GPU result has the 8 allocated rows, the CPU launcher
    fails. *)
Lemma gpu_negative_row_count_witness :
  let u := unit_of [ColumnVar 0] (Some 2) in
  let cc := compiled leaves_unset in
  let bufs := [chunk_buffer 0 GPU_LEVEL] in
  (exists rs allocated,
     fst (launchGpuCode u cc bufs 4 0 executor initial_state) = inr rs /\
     get_output_row_count u 4 initial_state = (inr allocated, initial_state) /\
     rs_allocated_rows rs = allocated /\
     rs_entry_count rs = allocated /\
     output_storage (snd (launchGpuCode u cc bufs 4 0 executor initial_state))
       = output_storage initial_state ++ [(GPU, allocated)] /\
     launches (snd (launchGpuCode u cc bufs 4 0 executor initial_state))
       = launches initial_state ++ [GPU]) /\
  fst (launchCpuCode u cc bufs 4 executor initial_state)
    = inl (Thrown OutputCardinalityNotSet).
Proof.
  cbv zeta.
  destruct (gpu_negative_row_count_falls_back_to_allocated
              (unit_of [ColumnVar 0] (Some 2)) (compiled leaves_unset)
              [chunk_buffer 0 GPU_LEVEL] 4 executor initial_state leaves_unset (-1)
              eq_refl eq_refl eq_refl eq_refl) as (Hgpu & Hcpu).
  split; [exact Hgpu | apply Hcpu; reflexivity].
Defined.

(** The scenario of the specification: a four-row column, multiplier 2, a
    function reporting 4 output rows: 8 rows allocated, 4 in the result. *)
Lemma cpu_row_count_witness :
  let u := unit_of [ColumnVar 0] (Some 2) in
  let cc := compiled (reports 4) in
  let bufs := [chunk_buffer 0 CPU_LEVEL] in
  exists rs allocated,
    fst (launchCpuCode u cc bufs 4 executor initial_state) = inr rs /\
    rs_entry_count rs = to_int64 4 /\
    rs_allocated_rows rs = allocated /\
    get_output_row_count u 4 initial_state = (inr allocated, initial_state) /\
    output_storage (snd (launchCpuCode u cc bufs 4 executor initial_state))
      = output_storage initial_state ++ [(CPU, allocated)].
Proof.
  cbv zeta.
  destruct (cpu_row_count_is_the_reported_one
              (unit_of [ColumnVar 0] (Some 2)) (compiled (reports 4))
              [chunk_buffer 0 CPU_LEVEL] 4 executor initial_state 0 4
              eq_refl eq_refl eq_refl) as (_ & Hset).
  apply Hset. vm_compute. discriminate.
Defined.

(** A single supported constant and no column. *)
Lemma no_column_input_witness :
  let u := unit_of [Constant (ti_integer 32) (mkDatum 7)] (Some 2) in
  let r := execute u (Some (compiled (reports 4))) GPU executor initial_state in
  (exists s,
     fst r = inl s /\
     (s = CheckFailed NoColumnInputs <->
      forallb is_supported_constant (input_exprs u) = true)) /\
  output_storage (snd r) = output_storage initial_state /\
  launches (snd r) = launches initial_state.
Proof.
  apply (no_column_input_fails_before_launch
           (unit_of [Constant (ti_integer 32) (mkDatum 7)] (Some 2))
           (compiled (reports 4)) GPU executor initial_state).
  reflexivity.
Defined.

(** A zero multiplier over a four-row column, on GPU. *)
Lemma zero_multiplier_witness :
  let u := unit_of [ColumnVar 0] (Some 0) in
  let r := execute u (Some (compiled (reports 4))) GPU executor initial_state in
  fst r = inl (Thrown UnsupportedOutputPolicy) /\
  output_storage (snd r) = output_storage initial_state /\
  launches (snd r) = launches initial_state.
Proof.
  cbv zeta.
  destruct (zero_multiplier_raises_unsupported_output_policy
              (unit_of [ColumnVar 0] (Some 0)) (compiled (reports 4)) GPU executor
              initial_state (mkState [] [] [0%nat] [] [])
              [chunk_buffer 0 GPU_LEVEL] 4
              eq_refl eq_refl eq_refl ltac:(lia) (fun _ => eq_refl)) as (Hraise & _).
  exact Hraise.
Defined.

(** A column followed by an expression of another kind. *)
Lemma other_expression_kind_witness :
  let u := unit_of [ColumnVar 0; OtherExpr] (Some 2) in
  let r := execute u (Some (compiled (reports 4))) CPU executor initial_state in
  (forall loop st0,
     marshal_input CPU executor (device_allocator_for CPU) loop OtherExpr st0
       = (inr loop, st0)) /\
  (exists s,
     fst r = inl s /\
     (forall loop',
        fst (marshal_inputs CPU executor (device_allocator_for CPU) (input_exprs u)
                            ([], -1) initial_state) = inr loop' ->
        s = CheckFailed BufferCountMismatch /\ user_facing s = false)) /\
  output_storage (snd r) = output_storage initial_state /\
  launches (snd r) = launches initial_state.
Proof.
  apply (other_expression_kind_fails_buffer_count_check
           (unit_of [ColumnVar 0; OtherExpr] (Some 2)) (compiled (reports 4))
           CPU executor initial_state).
  simpl. auto.
Defined.

(** ** Further scenarios of the specification *)

(** Packed on CPU, the tinyint -1 is one byte [0xFF] followed by the
    zeros of the value-initialised slot: it is not sign extended. *)
Example tinyint_on_cpu_is_not_sign_extended :
  let r := run (create_literal_buffer t_int8 (-1) CPU executor false) in
  fst r = inr (host_literal 0) /\
  pointee (snd r) (host_literal 0) = [255; 0; 0; 0; 0; 0; 0; 0] /\
  object_bytes 8 (-1) = [255; 255; 255; 255; 255; 255; 255; 255].
Proof. repeat split. Qed.

(** Packed on GPU, the bytes after the literal are those the device
    memory held: it is not zero extended. *)
Example smallint_on_gpu_is_not_zero_extended :
  let r := run (create_literal_buffer t_int16 258 GPU executor true) in
  fst r = inr (device_buffer 0) /\
  pointee (snd r) (device_buffer 0) = [2; 1; 170; 170; 170; 170; 170; 170].
Proof. repeat split. Qed.

(** A text constant stops the invocation before any launch. *)
Example text_constant_fails_before_launch :
  let r := run (execute (unit_of [ColumnVar 0; Constant ti_text (mkDatum 7)] (Some 2))
                        (Some (compiled (reports 4))) GPU executor) in
  fst r = inl (Thrown (UnsupportedLiteralType (mkDatum 7))) /\
  launches (snd r) = [] /\ output_storage (snd r) = [].
Proof. repeat split. Qed.

(** The whole invocation of the scenario behind C7, and its GPU twin with
    a kernel that leaves the row count unset. *)
Example reported_four_of_eight_rows :
  fst (run (execute (unit_of [ColumnVar 0] (Some 2)) (Some (compiled (reports 4)))
                    CPU executor))
    = inr (mkResultSet CPU [(8, 8)] 8 4) /\
  fst (run (execute (unit_of [ColumnVar 0] (Some 2)) (Some (compiled leaves_unset))
                    CPU executor))
    = inl (Thrown OutputCardinalityNotSet) /\
  fst (run (execute (unit_of [ColumnVar 0] (Some 2)) (Some (compiled leaves_unset))
                    GPU executor))
    = inr (mkResultSet GPU [(8, 8)] 8 8).
Proof. repeat split. Qed.

(** An absent multiplier that reaches the sizing is dereferenced: the
    row count follows the storage. *)
Example absent_multiplier_is_dereferenced :
  fst (run (get_output_row_count (mkExeUnit [ColumnVar 0] [0%nat] None 5) 4)) = inr 20.
Proof. reflexivity. Qed.

(** The cardinality check compares [ssize_t] casts: an element count of
    2^63 casts to a negative number, reads as "not yet established", and a
    following column of 5 elements then sets the count without a check. *)
Example cardinality_check_is_made_on_ssize_t :
  let r := run (execute (unit_of [ColumnVar 0; ColumnVar 1] (Some 2))
                        (Some (compiled (reports 4))) CPU oversized_executor) in
  fst r = inr (mkResultSet CPU [(8, 8)] 10 4) /\ launches (snd r) = [CPU].
Proof. repeat split. Qed.

(* ================================================================== *)
(** * Further properties of the code *)

(** ** Buffers stay as they were packed *)

Lemma nth_indexed_update_at {A} (f : A -> A) (k : nat) (d : A) (l : list A)
    (start i : nat) :
  (i < length l)%nat ->
  nth i (map (fun '(j, b) => if Nat.eqb j k then f b else b)
             (combine (seq start (length l)) l)) d
  = if Nat.eqb (start + i) k then f (nth i l d) else nth i l d.
Proof.
  revert i start. induction l as [| a l IH]; intros i start Hi; simpl in Hi; [lia |].
  destruct i as [| i]; simpl.
  - now replace (start + 0)%nat with start by lia.
  - rewrite (IH i (S start)) by lia.
    now replace (S start + i)%nat with (start + S i)%nat by lia.
Qed.

(** Updating the cell appended last leaves every earlier cell alone. *)
Lemma nth_update_appended {A} (f : A -> A) (d a : A) (l : list A) (i : nat) :
  (i < length l)%nat ->
  nth i (map (fun '(j, b) => if Nat.eqb j (length l) then f b else b)
             (combine (seq 0 (length (l ++ [a]))) (l ++ [a]))) d
  = nth i l d.
Proof.
  intros Hi. rewrite nth_indexed_update_at by (rewrite length_app; simpl; lia).
  simpl. destruct (Nat.eqb_spec i (length l)); [lia |]. now apply app_nth1.
Qed.

Ltac indexed_lengths :=
  rewrite ?length_map, ?length_combine, ?length_seq, ?Nat.min_id, ?length_app;
  simpl; lia.

Lemma keeps_buffers_refl (st : state) : keeps_buffers st st.
Proof. intros q Hq. auto. Qed.

Lemma keeps_buffers_trans (st1 st2 st3 : state) :
  keeps_buffers st1 st2 -> keeps_buffers st2 st3 -> keeps_buffers st1 st3.
Proof.
  intros H12 H23 q Hq. destruct (H12 q Hq) as (Hl & He).
  destruct (H23 q Hl) as (Hl' & He'). split; [exact Hl' | congruence].
Qed.

(** What one call of the packer does to the owners. *)
Lemma create_literal_buffer_fresh
    (T : scalar_type) (v : Z) (dev : ExecutorDeviceType) (ex : Executor)
    (alloc : bool) (st st' : state) (p : int8_ptr) :
  create_literal_buffer T v dev ex alloc st = (inr p, st') ->
  ~ live st p /\ live st' p /\ resident dev p /\
  keeps_buffers st st' /\
  chunks_owner st' = chunks_owner st /\
  match dev with
  | CPU => device_memory st' = device_memory st /\
           length (literals_owner st') = S (length (literals_owner st))
  | GPU => literals_owner st' = literals_owner st /\
           length (device_memory st') = S (length (device_memory st))
  end.
Proof.
  unfold create_literal_buffer, bind, CHECK. rewrite sizeof_le_slot.
  destruct dev; simpl.
  - intros [= <- <-]. cbn [live resident literals_owner device_memory chunks_owner].
    split; [lia |]. split; [indexed_lengths |]. split; [exact I |].
    split; [| split; [reflexivity | split; [reflexivity | indexed_lengths]]].
    intros [column level | slot | handle] Hq; simpl in *; auto.
    split; [indexed_lengths | now apply nth_update_appended].
  - destruct alloc; simpl; [| discriminate].
    intros [= <- <-]. cbn [live resident literals_owner device_memory chunks_owner].
    split; [lia |]. split; [indexed_lengths |]. split; [exact I |].
    split; [| split; [reflexivity | split; [reflexivity | indexed_lengths]]].
    intros [column level | slot | handle] Hq; simpl in *; auto.
    split; [indexed_lengths | now rewrite nth_update_appended].
Qed.

(** X1. Packing a literal hands out a buffer that did not exist before,
    resident on the execution device, and leaves every buffer the
    invocation already holds (earlier literals included) live and with
    the bytes it had.  On CPU no device memory is touched, on GPU no host
    slot. *)
Theorem literal_buffer_is_fresh_and_disturbs_nothing
    (T : scalar_type) (v : Z) (dev : ExecutorDeviceType) (ex : Executor)
    (alloc : bool) (st st' : state) (p : int8_ptr) :
  create_literal_buffer T v dev ex alloc st = (inr p, st') ->
  ~ live st p /\ live st' p /\ resident dev p /\
  keeps_buffers st st' /\
  chunks_owner st' = chunks_owner st /\
  match dev with
  | CPU => device_memory st' = device_memory st /\
           length (literals_owner st') = S (length (literals_owner st))
  | GPU => literals_owner st' = literals_owner st /\
           length (device_memory st') = S (length (device_memory st))
  end.
Proof.
  intros H.
  destruct (create_literal_buffer_fresh T v dev ex alloc st st' p H)
    as (Hnew & Hlive & Hresident & Hkeeps & Hchunks & Hapart).
  split; [exact Hnew |]. split; [exact Hlive |]. split; [exact Hresident |].
  split; [exact Hkeeps |]. split; [exact Hchunks |].
  destruct dev; exact Hapart.
Qed.

(** ** What is packed for a constant *)

Lemma object_bytes_congruent (n : nat) (a b : Z) :
  a mod 2 ^ (8 * Z.of_nat n) = b mod 2 ^ (8 * Z.of_nat n) ->
  object_bytes n a = object_bytes n b.
Proof.
  revert a b. induction n as [| n IH]; intros a b H; [reflexivity |].
  replace (8 * Z.of_nat (S n)) with (8 + 8 * Z.of_nat n) in H by lia.
  rewrite Z.pow_add_r in H by lia. change (2 ^ 8) with 256 in H.
  assert (Hpos : 0 < 2 ^ (8 * Z.of_nat n)) by (apply Z.pow_pos_nonneg; lia).
  assert (Hlow : a mod 256 = b mod 256).
  { assert (Hdiv : (256 | 256 * 2 ^ (8 * Z.of_nat n)))
      by (exists (2 ^ (8 * Z.of_nat n)); lia).
    rewrite <- (Z.mod_mod_divide a _ 256 Hdiv), <- (Z.mod_mod_divide b _ 256 Hdiv).
    now rewrite H. }
  rewrite !Z.rem_mul_r in H by lia.
  cbn [object_bytes]. f_equal; [exact Hlow |]. apply IH. lia.
Qed.

Lemma to_signed_congruent (bits v : Z) :
  0 <= bits -> to_signed bits v mod 2 ^ bits = v mod 2 ^ bits.
Proof.
  intros Hb. unfold to_signed.
  assert (Hpos : 0 < 2 ^ bits) by (apply Z.pow_pos_nonneg; lia).
  destruct (v mod 2 ^ bits <? 2 ^ (bits - 1)).
  - apply Z.mod_mod. lia.
  - rewrite <- (Z.mod_add _ 1) by lia.
    replace (v mod 2 ^ bits - 2 ^ bits + 1 * 2 ^ bits) with (v mod 2 ^ bits) by lia.
    apply Z.mod_mod. lia.
Qed.

Lemma to_unsigned_congruent (bits v : Z) :
  0 <= bits -> to_unsigned bits v mod 2 ^ bits = v mod 2 ^ bits.
Proof.
  intros Hb. unfold to_unsigned. apply Z.mod_mod.
  assert (0 < 2 ^ bits) by (apply Z.pow_pos_nonneg; lia). lia.
Qed.

(** The scalar type and the union member [execute] selects for a
    supported constant have the width its type info declares, and the
    member's bytes are the low bytes of the datum. *)
Lemma marshal_constant_selects (ti : SQLTypeInfo) (d : Datum)
    (dev : ExecutorDeviceType) (ex : Executor) (alloc : bool) :
  supported_literal ti = true ->
  exists T v,
    marshal_constant ti d dev ex alloc = create_literal_buffer T v dev ex alloc /\
    sizeof T = literal_width ti /\
    object_bytes (sizeof T) v = object_bytes (sizeof T) (datum_storage d).
Proof.
  unfold supported_literal, marshal_constant, literal_width. intros Hs.
  destruct (is_fp ti).
  - destruct (Z.eqb_spec (get_bit_width ti) 32) as [-> |].
    { exists t_float, (floatval d). repeat split.
      apply object_bytes_congruent. now apply to_unsigned_congruent. }
    destruct (Z.eqb_spec (get_bit_width ti) 64) as [-> |]; [| discriminate].
    exists t_double, (doubleval d). repeat split.
    apply object_bytes_congruent. now apply to_unsigned_congruent.
  - destruct (is_integer ti); [| discriminate]. simpl in Hs.
    destruct (Z.eqb_spec (get_bit_width ti) 8) as [-> |].
    { exists t_int8, (tinyintval d). repeat split.
      apply object_bytes_congruent. now apply to_signed_congruent. }
    destruct (Z.eqb_spec (get_bit_width ti) 16) as [-> |].
    { exists t_int16, (smallintval d). repeat split.
      apply object_bytes_congruent. now apply to_signed_congruent. }
    destruct (Z.eqb_spec (get_bit_width ti) 32) as [-> |].
    { exists t_int32, (intval d). repeat split.
      apply object_bytes_congruent. now apply to_signed_congruent. }
    destruct (Z.eqb_spec (get_bit_width ti) 64) as [-> |]; [| discriminate].
    exists t_int64, (bigintval d). repeat split.
    apply object_bytes_congruent. now apply to_signed_congruent.
Qed.

Lemma marshal_constant_packs (ti : SQLTypeInfo) (d : Datum)
    (dev : ExecutorDeviceType) (ex : Executor) (st st' : state) (p : int8_ptr) :
  marshal_constant ti d dev ex (device_allocator_for dev) st = (inr p, st') ->
  supported_literal ti = true /\
  pointee st' p
    = object_bytes (literal_width ti) (datum_storage d)
      ++ skipn (literal_width ti) (fresh_slot dev ex st) /\
  (literal_width ti <= sizeof_int64_t)%nat /\
  ~ live st p /\ live st' p /\ resident dev p /\ keeps_buffers st st' /\
  chunks_owner st' = chunks_owner st /\
  match dev with
  | CPU => device_memory st' = device_memory st /\
           length (literals_owner st') = S (length (literals_owner st))
  | GPU => literals_owner st' = literals_owner st /\
           length (device_memory st') = S (length (device_memory st))
  end.
Proof.
  intros H. destruct (supported_literal ti) eqn:Hs.
  2:{ rewrite (marshal_constant_unsupported ti d dev ex _ st Hs) in H. discriminate. }
  split; [reflexivity |].
  destruct (marshal_constant_selects ti d dev ex (device_allocator_for dev) Hs)
    as (T & v & Heq & Hw & Hb).
  rewrite Heq in H.
  destruct (create_literal_buffer_slot T v dev ex st) as (p0 & st0 & H0 & Hslot & _).
  rewrite H in H0. injection H0 as <- <-.
  split; [now rewrite Hslot, Hb, Hw |].
  split; [rewrite <- Hw; apply Nat.leb_le, sizeof_le_slot |].
  exact (create_literal_buffer_fresh T v dev ex _ st st' p H).
Qed.

(** X2. For a constant that [execute] packs, the buffer holds, at its
    low end, as many bytes as the constant's type info declares
    ([get_bit_width / 8]), and they are the low bytes of the datum's
    storage: the union member the switch selects is copied bit for bit,
    whatever the category.  A constant that is not packed leaves no
    buffer behind. *)
Theorem constant_is_packed_from_the_low_bytes_of_its_datum
    (ti : SQLTypeInfo) (d : Datum) (dev : ExecutorDeviceType) (ex : Executor)
    (st : state) :
  let r := marshal_constant ti d dev ex (device_allocator_for dev) st in
  if supported_literal ti
  then exists p,
         fst r = inr p /\
         length (pointee (snd r) p) = sizeof_int64_t /\
         firstn (literal_width ti) (pointee (snd r) p)
           = object_bytes (literal_width ti) (datum_storage d) /\
         bytes_value (firstn (literal_width ti) (pointee (snd r) p))
           = datum_storage d mod 2 ^ get_bit_width ti
  else (exists s, fst r = inl s) /\ snd r = st.
Proof.
  cbv zeta. destruct (supported_literal ti) eqn:Hs.
  - destruct (marshal_constant_supported ti d dev ex st Hs) as (p & st' & H & _).
    destruct (marshal_constant_packs ti d dev ex st st' p H)
      as (_ & Hslot & Hw & _).
    rewrite H. simpl. exists p. split; [reflexivity |].
    assert (Hlen : length (object_bytes (literal_width ti) (datum_storage d))
                   = literal_width ti) by apply length_object_bytes.
    assert (Hfirst : firstn (literal_width ti) (pointee st' p)
                     = object_bytes (literal_width ti) (datum_storage d)).
    { rewrite Hslot. rewrite <- Hlen at 1.
      rewrite firstn_app, firstn_all, Nat.sub_diag. simpl. apply app_nil_r. }
    split; [| split; [exact Hfirst |]].
    + rewrite Hslot, length_app, length_skipn, length_fresh_slot, Hlen.
      unfold sizeof_int64_t in *. lia.
    + rewrite Hfirst, bytes_value_object_bytes. f_equal. f_equal.
      unfold literal_width. unfold supported_literal in Hs.
      destruct (is_fp ti).
      * destruct (Z.eqb_spec (get_bit_width ti) 32) as [-> |]; [reflexivity |].
        destruct (Z.eqb_spec (get_bit_width ti) 64) as [-> |]; [reflexivity | discriminate].
      * destruct (is_integer ti); [| discriminate]. simpl in Hs.
        destruct (Z.eqb_spec (get_bit_width ti) 8) as [-> |]; [reflexivity |].
        destruct (Z.eqb_spec (get_bit_width ti) 16) as [-> |]; [reflexivity |].
        destruct (Z.eqb_spec (get_bit_width ti) 32) as [-> |]; [reflexivity |].
        destruct (Z.eqb_spec (get_bit_width ti) 64) as [-> |]; [reflexivity | discriminate].
  - rewrite (marshal_constant_unsupported ti d dev ex _ st Hs). simpl. eauto.
Qed.

(** ** The marshaled buffers, input by input *)

Lemma marshaled_as_kept (dev : ExecutorDeviceType) (st st' : state)
    (e : Expr) (p : int8_ptr) :
  keeps_buffers st st' -> marshaled_as dev st e p -> marshaled_as dev st' e p.
Proof.
  intros Hk (Hl & Hr & He). destruct (Hk p Hl) as (Hl' & Hp).
  split; [exact Hl' |]. split; [exact Hr |].
  destruct e; [exact He | now rewrite Hp | exact He].
Qed.

Lemma own_chunk_keeps (column : nat) (st : state) :
  keeps_buffers st (snd (own_chunk column st)).
Proof.
  intros [c level | slot | handle] Hq; simpl in *; auto.
  split; [apply in_or_app; now left | reflexivity].
Qed.

(** One completed iteration: what it pushes and what it leaves alone. *)
Lemma marshal_input_pushes (dev : ExecutorDeviceType) (ex : Executor)
    (bufs bufs' : list int8_ptr) (ec ec' : Z) (e : Expr) (st st' : state) :
  marshal_input dev ex (device_allocator_for dev) (bufs, ec) e st
    = (inr (bufs', ec'), st') ->
  keeps_buffers st st' /\
  chunks_owner st' = chunks_owner st ++ columns_of [e] /\
  (if buffered e
   then exists p, bufs' = bufs ++ [p] /\ marshaled_as dev st' e p
   else bufs' = bufs).
Proof.
  destruct e as [column | ti d |].
  - rewrite marshal_input_column. cbv zeta. intros H.
    assert (Hst : st' = snd (own_chunk column st)) by (now injection H).
    assert (Hb : bufs' = bufs ++ [chunk_buffer column (memory_level_of dev)]).
    { destruct (ec <? 0); [now injection H |].
      destruct (_ =? ec); [now injection H | discriminate]. }
    subst st' bufs'. split; [apply own_chunk_keeps |]. split; [reflexivity |].
    simpl. eexists. split; [reflexivity |].
    repeat split. simpl. apply in_or_app. right. now left.
  - unfold marshal_input, bind.
    destruct (marshal_constant ti d dev ex (device_allocator_for dev) st)
      as [[s | p] st1] eqn:Hc; [discriminate |].
    intros [= <- <- <-].
    destruct (marshal_constant_packs ti d dev ex st st1 p Hc)
      as (_ & Hslot & Hw & _ & Hl & Hr & Hk & Hch & _).
    split; [exact Hk |]. split; [simpl; now rewrite app_nil_r |].
    simpl. exists p. split; [reflexivity |]. split; [exact Hl |]. split; [exact Hr |].
    assert (Hlen : length (object_bytes (literal_width ti) (datum_storage d))
                   = literal_width ti) by apply length_object_bytes.
    rewrite Hslot. split.
    + rewrite length_app, length_skipn, length_fresh_slot, Hlen.
      unfold sizeof_int64_t in *. lia.
    + rewrite <- Hlen at 1.
      rewrite firstn_app, firstn_all, Nat.sub_diag. simpl. apply app_nil_r.
  - rewrite marshal_input_other. intros [= <- <- <-].
    split; [apply keeps_buffers_refl |]. simpl. now rewrite app_nil_r.
Qed.

Lemma marshal_inputs_pushes (dev : ExecutorDeviceType) (ex : Executor)
    (l : list Expr) (bufs bufs' : list int8_ptr) (ec ec' : Z) (st st' : state) :
  marshal_inputs dev ex (device_allocator_for dev) l (bufs, ec) st
    = (inr (bufs', ec'), st') ->
  keeps_buffers st st' /\
  chunks_owner st' = chunks_owner st ++ columns_of l /\
  exists pushed,
    bufs' = bufs ++ pushed /\
    Forall2 (marshaled_as dev st') (filter buffered l) pushed.
Proof.
  revert bufs ec st. induction l as [| e l IH]; intros bufs ec st H.
  - simpl in H. injection H as <- <- <-.
    split; [apply keeps_buffers_refl |]. split; [simpl; now rewrite app_nil_r |].
    exists []. split; [now rewrite app_nil_r | constructor].
  - rewrite marshal_inputs_cons in H.
    destruct (marshal_input dev ex (device_allocator_for dev) (bufs, ec) e st)
      as [[s | [bufs1 ec1]] st1] eqn:He; [discriminate |].
    destruct (marshal_input_pushes dev ex bufs bufs1 ec ec1 e st st1 He)
      as (Hk1 & Hc1 & Hp1).
    destruct (IH bufs1 ec1 st1 H) as (Hk & Hc & pushed & Hb & Hf).
    split; [eapply keeps_buffers_trans; eauto |].
    split.
    { rewrite Hc, Hc1. change (e :: l) with ([e] ++ l). unfold columns_of.
      now rewrite flat_map_app, app_assoc. }
    simpl filter. destruct (buffered e).
    + destruct Hp1 as (p & -> & Hm). exists (p :: pushed).
      split; [now rewrite Hb, <- app_assoc |].
      constructor; [eapply marshaled_as_kept; eauto | exact Hf].
    + subst bufs1. exists pushed. auto.
Qed.




(** ** The launchers, outcome by outcome *)

Lemma invoked_unchanged {A} (m : M A) (st : state) :
  launches (snd (m st)) = launches st -> invoked m st = false.
Proof. intros H. unfold invoked. rewrite H. apply Nat.ltb_irrefl. Qed.

(** What the CPU launcher answers once the function has been called. *)
Lemma launchCpuCode_invoked (u : TableFunctionExecutionUnit)
    (cc : TableFunctionCompilationContext) (bufs : list int8_ptr) (n : Z)
    (ex : Executor) (st : state) :
  invoked (launchCpuCode u cc bufs n ex) st = true ->
  let m := multiplier_as_read u in
  m <> 0 /\ bufs <> [] /\ getGroupByBuffersPtr ex = true /\
  launchCpuCode u cc bufs n ex st
  = (let err := to_int32 (fst (getFuncPtr cc bufs (to_int64 n) (-1))) in
     let k := to_int64 (snd (getFuncPtr cc bufs (to_int64 n) (-1))) in
     if negb (err =? 0) then inl (Thrown (TableFunctionExecutionError err))
     else if k <? 0 then inl (Thrown OutputCardinalityNotSet)
          else inr (mkResultSet CPU (output_col_slots u) (to_size_t (m * n))
                                (to_size_t k)),
     after_cpu_launch st (to_size_t (m * n))).
Proof.
  intros Hinv. cbv zeta.
  destruct bufs as [| b bufs'] eqn:Hb.
  { rewrite invoked_unchanged in Hinv by now rewrite launchCpuCode_empty.
    discriminate. }
  rewrite <- Hb in *. assert (Hne : bufs <> []) by (rewrite Hb; discriminate).
  destruct (get_output_row_count_cases u n st) as [(Hnz & Hg) | (Hz & Hg)].
  - destruct (getGroupByBuffersPtr ex) eqn:Hgb.
    2:{ rewrite invoked_unchanged in Hinv
          by now rewrite (launchCpuCode_without_buffers u cc bufs n ex st _ Hne Hg Hgb).
        discriminate. }
    repeat split; auto.
    destruct (getFuncPtr cc bufs (to_int64 n) (-1)) as [err k] eqn:Hf.
    now rewrite (launchCpuCode_launched u cc bufs n ex st _ err k Hne Hg Hgb Hf).
  - rewrite invoked_unchanged in Hinv
      by now rewrite (launchCpuCode_sizing_failed u cc bufs n ex st _ Hne Hg).
    discriminate.
Qed.

(** What the GPU launcher answers once the kernel has been launched. *)
Lemma launchGpuCode_invoked (u : TableFunctionExecutionUnit)
    (cc : TableFunctionCompilationContext) (bufs : list int8_ptr) (n : Z)
    (ex : Executor) (st : state) :
  invoked (launchGpuCode u cc bufs n 0 ex) st = true ->
  let m := multiplier_as_read u in
  exists cu_func,
    m <> 0 /\ getGroupByBuffersPtr ex = true /\
    HAVE_CUDA ex = true /\ getGpuCode cc = Some cu_func /\
    launches (snd (launchGpuCode u cc bufs n 0 ex st)) = launches st ++ [GPU] /\
    output_storage (snd (launchGpuCode u cc bufs n 0 ex st))
      = output_storage st ++ [(GPU, to_size_t (m * n))] /\
    fst (launchGpuCode u cc bufs n 0 ex st)
    = (let cu_result := fst (cu_func bufs n (-1)) in
       let device_row_count := to_int64 (snd (cu_func bufs n (-1))) in
       if cu_result =? 0
       then inr (mkResultSet GPU (output_col_slots u) (to_size_t (m * n))
                   (to_size_t (if device_row_count <? 0
                               then to_int64 (to_size_t (m * n))
                               else device_row_count)))
       else inl (CheckFailed (KernelLaunchError cu_result))).
Proof.
  intros Hinv. cbv zeta.
  destruct (HAVE_CUDA ex) eqn:Hcuda.
  2:{ rewrite invoked_unchanged in Hinv
        by now rewrite launchGpuCode_without_cuda. discriminate. }
  destruct (get_output_row_count_cases u n st) as [(Hnz & _) | (Hz & _)].
  - destruct (launchGpuCode_sized u cc bufs n _ ex st Hcuda eq_refl Hnz) as (Ho & Hk).
    destruct (getGroupByBuffersPtr ex).
    2:{ destruct Hk as (_ & Hl). rewrite invoked_unchanged in Hinv by exact Hl.
        discriminate. }
    destruct (getGpuCode cc) as [cu_func |].
    + destruct Hk as (Hl & Hr). exists cu_func. repeat split; auto.
    + destruct Hk as (_ & Hl). rewrite invoked_unchanged in Hinv by exact Hl.
      discriminate.
  - destruct (launchGpuCode_sizing_failed u cc bufs n ex st Hcuda Hz)
      as (_ & _ & Hl & _).
    rewrite invoked_unchanged in Hinv by exact Hl. discriminate.
Qed.

(** X4. On the CPU path a non-zero return code of the compiled function
    makes the launcher throw TableFunctionExecutionError carrying that
    code (as an [int32_t]); the code is looked at before the output row
    count, so it wins even when the row count was left unset, and no
    result is returned although the output storage has been allocated. *)
Theorem cpu_return_code_is_surfaced_first
    (u : TableFunctionExecutionUnit) (cc : TableFunctionCompilationContext)
    (bufs : list int8_ptr) (n : Z) (ex : Executor) (st : state) (err k : Z) :
  invoked (launchCpuCode u cc bufs n ex) st = true ->
  getFuncPtr cc bufs (to_int64 n) (-1) = (err, k) ->
  to_int32 err <> 0 ->
  fst (launchCpuCode u cc bufs n ex st)
    = inl (Thrown (TableFunctionExecutionError (to_int32 err))) /\
  exists allocated,
    output_storage (snd (launchCpuCode u cc bufs n ex st))
      = output_storage st ++ [(CPU, allocated)].
Proof.
  intros Hinv Hf Herr.
  destruct (launchCpuCode_invoked u cc bufs n ex st Hinv) as (_ & _ & _ & Hr).
  rewrite Hr, Hf. cbv zeta. simpl fst. simpl snd.
  destruct (Z.eqb_spec (to_int32 err) 0); [contradiction |]. simpl. eauto.
Qed.

(** X5. On the GPU path a launch the driver rejects (a [CUresult] other
    than [CUDA_SUCCESS]) is fatal: the launcher stops at
    [checkCudaErrors] with that code and returns no result, whatever the
    output-row-count cell holds.  A launch the driver accepts always
    yields a result: with the cell's value as row count when it is not
    negative, the allocated row count otherwise. *)
Theorem gpu_launch_result_is_checked
    (u : TableFunctionExecutionUnit) (cc : TableFunctionCompilationContext)
    (bufs : list int8_ptr) (n : Z) (ex : Executor) (st : state)
    (cu_func : table_function) (cu_result v : Z) :
  getGpuCode cc = Some cu_func ->
  invoked (launchGpuCode u cc bufs n 0 ex) st = true ->
  cu_func bufs n (-1) = (cu_result, v) ->
  (cu_result <> 0 ->
   fst (launchGpuCode u cc bufs n 0 ex st)
     = inl (CheckFailed (KernelLaunchError cu_result))) /\
  (cu_result = 0 ->
   exists rs,
     fst (launchGpuCode u cc bufs n 0 ex st) = inr rs /\
     rs_entry_count rs
       = if to_int64 v <? 0 then rs_allocated_rows rs else to_int64 v).
Proof.
  intros Hcode Hinv Hrun.
  destruct (launchGpuCode_invoked u cc bufs n ex st Hinv)
    as (f & _ & _ & _ & Hcode' & _ & _ & Hr).
  rewrite Hcode in Hcode'. injection Hcode' as <-.
  rewrite Hr, Hrun. cbv zeta. simpl fst. simpl snd. split.
  - intros Hcu. now destruct (Z.eqb_spec cu_result 0).
  - intros ->. simpl. eexists. split; [reflexivity |]. simpl.
    destruct (Z.ltb_spec (to_int64 v) 0).
    + apply to_size_t_to_int64, to_size_t_range.
    + apply to_size_t_small. pose proof (to_int64_nonneg_range v). lia.
Qed.

(** ** The whole invocation *)

Lemma launcher_returned (dev : ExecutorDeviceType) (u : TableFunctionExecutionUnit)
    (cc : TableFunctionCompilationContext) (bufs : list int8_ptr) (n : Z)
    (ex : Executor) (st st' : state) (rs : ResultSet) :
  launcher dev u cc bufs n ex st = (inr rs, st') ->
  let m := multiplier_as_read u in
  m <> 0 /\
  rs_device rs = dev /\
  rs_col_slots rs = output_col_slots u /\
  rs_allocated_rows rs = to_size_t (m * n) /\
  0 <= rs_entry_count rs < 2 ^ 64 /\
  output_storage st' = output_storage st ++ [(dev, to_size_t (m * n))] /\
  launches st' = launches st ++ [dev].
Proof.
  intros H. cbv zeta.
  assert (Hinv : invoked (launcher dev u cc bufs n ex) st = true).
  { pose proof (launcher_outcomes dev u cc bufs n ex st) as Ho. cbv zeta in Ho.
    rewrite H in Ho. simpl in Ho.
    destruct Ho as [(s & Hs & _) | (_ & _ & [(s & Hs & _) | (Hi & _)])];
      [discriminate | discriminate | exact Hi]. }
  destruct dev; unfold launcher in *.
  - destruct (launchCpuCode_invoked u cc bufs n ex st Hinv) as (Hnz & _ & _ & Hr).
    rewrite H in Hr. cbv zeta in Hr.
    destruct (negb (_ =? 0)); [discriminate |].
    destruct (_ <? 0); [discriminate |].
    injection Hr as -> ->. simpl. repeat split; auto; apply to_size_t_range.
  - destruct (launchGpuCode_invoked u cc bufs n ex st Hinv)
      as (f & Hnz & _ & _ & _ & Hl & Ho & Hr).
    rewrite H in Hr, Hl, Ho. simpl in Hr, Hl, Ho. cbv zeta in Hr.
    destruct (_ =? 0); [| discriminate].
    injection Hr as ->. simpl. repeat split; auto; apply to_size_t_range.
Qed.

(** X6. Every result [execute] returns comes out of exactly one output
    allocation and exactly one call of the compiled code, both on the
    device asked for; its layout has one 8-byte slot with 8-byte alignment
    per target expression, whatever the targets are; and its row count is
    a [size_t]. *)
Theorem returned_result_shape
    (u : TableFunctionExecutionUnit) (cc : TableFunctionCompilationContext)
    (dev : ExecutorDeviceType) (ex : Executor) (st st' : state) (rs : ResultSet) :
  execute u (Some cc) dev ex st = (inr rs, st') ->
  rs_device rs = dev /\
  rs_col_slots rs = repeat (8, 8) (length (target_exprs u)) /\
  output_storage st' = output_storage st ++ [(dev, rs_allocated_rows rs)] /\
  launches st' = launches st ++ [dev] /\
  0 <= rs_entry_count rs < 2 ^ 64.
Proof.
  intros H.
  pose proof (marshal_inputs_no_output dev ex (input_exprs u) ([], -1) st) as Hno.
  cbv zeta in Hno.
  destruct (marshal_inputs dev ex (device_allocator_for dev) (input_exprs u) ([], -1) st)
    as [[s | [bufs ec]] st1] eqn:Hmar.
  - destruct (execute_marshal_failed u cc dev ex st s) as (Hs & _);
      [now rewrite Hmar |]. rewrite H in Hs. discriminate.
  - rewrite (execute_after_marshal u cc dev ex st st1 bufs ec Hmar) in H.
    destruct (negb (Nat.eqb (length bufs) (length (input_exprs u)))); [discriminate |].
    destruct (ec <? 0); [discriminate |].
    destruct (launcher_returned dev u cc bufs (to_size_t ec) ex st1 st' rs H)
      as (_ & Hd & Hs & Ha & He & Ho & Hl).
    simpl in Hno. destruct Hno as (Ho1 & Hl1).
    split; [exact Hd |]. split.
    { rewrite Hs. unfold output_col_slots.
      clear. induction (target_exprs u); simpl; congruence. }
    rewrite Ha, Ho, Hl, Ho1, Hl1. auto.
Qed.

Lemma launcher_stops (dev : ExecutorDeviceType) (u : TableFunctionExecutionUnit)
    (cc : TableFunctionCompilationContext) (bufs : list int8_ptr) (n : Z)
    (ex : Executor) (st : state) (s : stop) :
  bufs <> [] ->
  fst (launcher dev u cc bufs n ex st) = inl s ->
  may_stop_execute dev s.
Proof.
  intros Hne H.
  destruct dev; unfold launcher in *.
  - destruct (get_output_row_count_cases u n st) as [(Hnz & Hg) | (Hz & Hg)].
    + destruct (getGroupByBuffersPtr ex) eqn:Hgb.
      2:{ rewrite (launchCpuCode_without_buffers u cc bufs n ex st _ Hne Hg Hgb) in H.
          injection H as <-. exact I. }
      destruct (getFuncPtr cc bufs (to_int64 n) (-1)) as [err k] eqn:Hf.
      rewrite (launchCpuCode_launched u cc bufs n ex st _ err k Hne Hg Hgb Hf) in H.
      simpl in H. destruct (Z.eqb_spec (to_int32 err) 0); simpl in H.
      * destruct (_ <? 0); [| discriminate]. injection H as <-. reflexivity.
      * injection H as <-. simpl. auto.
    + rewrite (launchCpuCode_sizing_failed u cc bufs n ex st _ Hne Hg) in H.
      injection H as <-. exact I.
  - destruct (HAVE_CUDA ex) eqn:Hcuda.
    2:{ rewrite launchGpuCode_without_cuda in H by exact Hcuda.
        injection H as <-. exact I. }
    destruct (get_output_row_count_cases u n st) as [(Hnz & _) | (Hz & _)].
    + destruct (launchGpuCode_sized u cc bufs n _ ex st Hcuda eq_refl Hnz) as (_ & Hk).
      destruct (getGroupByBuffersPtr ex).
      2:{ destruct Hk as (Hr & _). rewrite Hr in H. injection H as <-. exact I. }
      destruct (getGpuCode cc) as [f |].
      * destruct Hk as (_ & Hr). rewrite Hr in H. cbv zeta in H.
        destruct (Z.eqb_spec (fst (f bufs n (-1))) 0); [discriminate |].
        injection H as <-. simpl. auto.
      * destruct Hk as (Hr & _). rewrite Hr in H. injection H as <-. reflexivity.
    + destruct (launchGpuCode_sizing_failed u cc bufs n ex st Hcuda Hz) as (Hr & _).
      rewrite Hr in H. injection H as <-. exact I.
Qed.

(** X7. The failures of [execute] are the exceptions and checks of
    [may_stop_execute] and no others; it stops at the check of the
    compilation context exactly when it is given none.  In particular the
    defensive checks on the literal width, the GPU allocator, the
    byte-stream pointer and the kernel parameter count never fail in an
    invocation; a TableFunctionExecutionError always carries a non-zero
    code; OutputCardinalityNotSet and TableFunctionExecutionError occur on
    CPU only, a null GPU context and a kernel launch error on GPU only. *)
Theorem execute_stops_only_as_listed
    (u : TableFunctionExecutionUnit) (cc : option TableFunctionCompilationContext)
    (dev : ExecutorDeviceType) (ex : Executor) (st : state) (s : stop) :
  fst (execute u cc dev ex st) = inl s ->
  may_stop_execute dev s /\
  (s = CheckFailed NullCompilationContext <-> cc = None).
Proof.
  intros H. destruct cc as [cc |].
  2:{ simpl in H. injection H as <-. simpl. tauto. }
  assert (Hlisted : may_stop_execute dev s /\ s <> CheckFailed NullCompilationContext).
  { destruct (marshal_inputs dev ex (device_allocator_for dev) (input_exprs u) ([], -1) st)
      as [[s1 | [bufs ec]] st1] eqn:Hmar.
    - destruct (execute_marshal_failed u cc dev ex st s1) as (Hs & _);
        [now rewrite Hmar |].
      rewrite H in Hs. injection Hs as ->.
      destruct (marshal_inputs_failure_kinds dev ex (input_exprs u) ([], -1) st s1)
        as [-> | [-> | (d & ->)]];
        [now rewrite Hmar | split; [exact I | discriminate] ..].
    - rewrite (execute_after_marshal u cc dev ex st st1 bufs ec Hmar) in H.
      destruct (negb (Nat.eqb (length bufs) (length (input_exprs u))));
        [injection H as <-; split; [exact I | discriminate] |].
      destruct (Z.ltb_spec ec 0); [injection H as <-; split; [exact I | discriminate] |].
      assert (Hm : may_stop_execute dev s).
      { apply (launcher_stops dev u cc bufs (to_size_t ec) ex st1 s); [| exact H].
        apply (marshal_inputs_established dev ex (input_exprs u) bufs ec st);
          [now rewrite Hmar | lia]. }
      split; [exact Hm |]. intros ->.
      pose proof (launcher_outcomes dev u cc bufs (to_size_t ec) ex st1) as Ho.
      cbv zeta in Ho. clear Hm.
      destruct dev; unfold launcher in *.
      + destruct (get_output_row_count_cases u (to_size_t ec) st1)
          as [(Hnz & Hg) | (Hz & Hg)].
        * assert (Hne : bufs <> []).
          { apply (marshal_inputs_established CPU ex (input_exprs u) bufs ec st);
              [now rewrite Hmar | lia]. }
          destruct (getGroupByBuffersPtr ex) eqn:Hgb.
          2:{ rewrite (launchCpuCode_without_buffers u cc bufs _ ex st1 _ Hne Hg Hgb) in H.
              discriminate. }
          destruct (getFuncPtr cc bufs (to_int64 (to_size_t ec)) (-1)) as [err k] eqn:Hf.
          rewrite (launchCpuCode_launched u cc bufs _ ex st1 _ err k Hne Hg Hgb Hf) in H.
          simpl in H. destruct (negb _); [discriminate |].
          destruct (_ <? 0); discriminate.
        * assert (Hne : bufs <> []).
          { apply (marshal_inputs_established CPU ex (input_exprs u) bufs ec st);
              [now rewrite Hmar | lia]. }
          rewrite (launchCpuCode_sizing_failed u cc bufs _ ex st1 _ Hne Hg) in H.
          discriminate.
      + destruct (HAVE_CUDA ex) eqn:Hcuda.
        2:{ rewrite launchGpuCode_without_cuda in H by exact Hcuda. discriminate. }
        destruct (get_output_row_count_cases u (to_size_t ec) st1)
          as [(Hnz & _) | (Hz & _)].
        * destruct (launchGpuCode_sized u cc bufs (to_size_t ec) _ ex st1 Hcuda
                      eq_refl Hnz) as (_ & Hk).
          destruct (getGroupByBuffersPtr ex).
          2:{ destruct Hk as (Hr & _). rewrite Hr in H. discriminate. }
          destruct (getGpuCode cc) as [f |].
          -- destruct Hk as (_ & Hr). rewrite Hr in H. cbv zeta in H.
             destruct (_ =? 0); discriminate.
          -- destruct Hk as (Hr & _). rewrite Hr in H. discriminate.
        * destruct (launchGpuCode_sizing_failed u cc bufs (to_size_t ec) ex st1 Hcuda Hz)
            as (Hr & _).
          rewrite Hr in H. discriminate. }
  destruct Hlisted as (Hm & Hne). split; [exact Hm |]. split; [contradiction | discriminate].
Qed.

(** ** Host and device memory are kept apart *)

Lemma marshal_input_separation (dev : ExecutorDeviceType) (ex : Executor)
    (loop : list int8_ptr * Z) (e : Expr) (st : state) :
  let r := marshal_input dev ex (device_allocator_for dev) loop e st in
  match dev with
  | CPU => device_memory (snd r) = device_memory st
  | GPU => literals_owner (snd r) = literals_owner st
  end.
Proof.
  cbv zeta. destruct loop as [bufs ec]. destruct e as [column | ti d |].
  - rewrite marshal_input_column. now destruct dev.
  - unfold marshal_input, bind.
    destruct (marshal_constant ti d dev ex (device_allocator_for dev) st)
      as [[s | p] st1] eqn:Hc.
    + destruct (supported_literal ti) eqn:Hs.
      * destruct (marshal_constant_supported ti d dev ex st Hs) as (p & st2 & H & _).
        rewrite H in Hc. discriminate.
      * rewrite (marshal_constant_unsupported ti d dev ex _ st Hs) in Hc.
        injection Hc as _ <-. now destruct dev.
    + destruct (marshal_constant_packs ti d dev ex st st1 p Hc)
        as (_ & _ & _ & _ & _ & _ & _ & _ & Hsep).
      destruct dev; simpl; tauto.
  - rewrite marshal_input_other. now destruct dev.
Qed.

Lemma marshal_inputs_separation (dev : ExecutorDeviceType) (ex : Executor)
    (l : list Expr) (loop : list int8_ptr * Z) (st : state) :
  let r := marshal_inputs dev ex (device_allocator_for dev) l loop st in
  match dev with
  | CPU => device_memory (snd r) = device_memory st
  | GPU => literals_owner (snd r) = literals_owner st
  end.
Proof.
  revert loop st. induction l as [| e l IH]; intros loop st; [now destruct dev |].
  cbv zeta. rewrite marshal_inputs_cons.
  pose proof (marshal_input_separation dev ex loop e st) as He. cbv zeta in He.
  destruct (marshal_input dev ex (device_allocator_for dev) loop e st)
    as [[s | loop'] st1]; simpl in *; [exact He |].
  specialize (IH loop' st1). cbv zeta in IH.
  destruct dev; congruence.
Qed.

Lemma launchCpuCode_device_memory (u : TableFunctionExecutionUnit)
    (cc : TableFunctionCompilationContext) (bufs : list int8_ptr) (n : Z)
    (ex : Executor) (st : state) :
  device_memory (snd (launchCpuCode u cc bufs n ex st)) = device_memory st.
Proof.
  destruct bufs as [| b bufs'] eqn:Hb; [reflexivity |].
  rewrite <- Hb. assert (Hne : bufs <> []) by (rewrite Hb; discriminate).
  destruct (get_output_row_count_cases u n st) as [(Hnz & Hg) | (Hz & Hg)].
  - destruct (getGroupByBuffersPtr ex) eqn:Hgb.
    + destruct (getFuncPtr cc bufs (to_int64 n) (-1)) as [err k] eqn:Hf.
      now rewrite (launchCpuCode_launched u cc bufs n ex st _ err k Hne Hg Hgb Hf).
    + now rewrite (launchCpuCode_without_buffers u cc bufs n ex st _ Hne Hg Hgb).
  - now rewrite (launchCpuCode_sizing_failed u cc bufs n ex st _ Hne Hg).
Qed.

Lemma launchGpuCode_literals_owner (u : TableFunctionExecutionUnit)
    (cc : TableFunctionCompilationContext) (bufs : list int8_ptr) (n : Z)
    (ex : Executor) (st : state) :
  literals_owner (snd (launchGpuCode u cc bufs n 0 ex st)) = literals_owner st.
Proof.
  destruct (HAVE_CUDA ex) eqn:Hcuda.
  2:{ now rewrite launchGpuCode_without_cuda. }
  run_gpu_launcher Hcuda.
  destruct (dereference _ _ =? 0); gpu_step; [reflexivity |].
  destruct (getGroupByBuffersPtr ex); gpu_step; [| reflexivity].
  destruct (getGpuCode cc) as [cu_func |]; gpu_step; [| reflexivity].
  destruct (cu_func bufs n (-1)) as [cu v]. gpu_step.
  destruct (cu =? 0); reflexivity.
Qed.

(** X8. Whatever its outcome, an invocation on CPU never allocates or
    writes device memory, and an invocation on GPU never allocates or
    writes a host literal slot: literals always go where the function
    will run. *)
Theorem host_and_device_memory_are_kept_apart
    (u : TableFunctionExecutionUnit) (cc : option TableFunctionCompilationContext)
    (ex : Executor) (st : state) :
  device_memory (snd (execute u cc CPU ex st)) = device_memory st /\
  literals_owner (snd (execute u cc GPU ex st)) = literals_owner st.
Proof.
  destruct cc as [cc |]; [| split; reflexivity]. split.
  - pose proof (marshal_inputs_separation CPU ex (input_exprs u) ([], -1) st) as Hs.
    cbv zeta in Hs.
    destruct (marshal_inputs CPU ex (device_allocator_for CPU) (input_exprs u) ([], -1) st)
      as [[s | [bufs ec]] st1] eqn:Hmar.
    + unfold execute, bind. now rewrite Hmar.
    + rewrite (execute_after_marshal u cc CPU ex st st1 bufs ec Hmar).
      destruct (negb _); [exact Hs |]. destruct (ec <? 0); [exact Hs |].
      unfold launcher. now rewrite launchCpuCode_device_memory.
  - pose proof (marshal_inputs_separation GPU ex (input_exprs u) ([], -1) st) as Hs.
    cbv zeta in Hs.
    destruct (marshal_inputs GPU ex (device_allocator_for GPU) (input_exprs u) ([], -1) st)
      as [[s | [bufs ec]] st1] eqn:Hmar.
    + unfold execute, bind. now rewrite Hmar.
    + rewrite (execute_after_marshal u cc GPU ex st st1 bufs ec Hmar).
      destruct (negb _); [exact Hs |]. destruct (ec <? 0); [exact Hs |].
      unfold launcher. now rewrite launchGpuCode_literals_owner.
Qed.

(** X9. In a build without [HAVE_CUDA] no GPU invocation returns a
    result: it allocates no output storage, launches nothing, and, when
    its inputs marshal and pass both checks, it ends in [UNREACHABLE()]. *)
Theorem gpu_invocation_without_cuda_is_unreachable
    (u : TableFunctionExecutionUnit) (cc : TableFunctionCompilationContext)
    (ex : Executor) (st : state) :
  HAVE_CUDA ex = false ->
  let r := execute u (Some cc) GPU ex st in
  (exists s,
     fst r = inl s /\
     (forall bufs ec,
        fst (marshal_inputs GPU ex (device_allocator_for GPU) (input_exprs u)
                            ([], -1) st) = inr (bufs, ec) ->
        length bufs = length (input_exprs u) -> 0 <= ec -> s = Unreachable)) /\
  output_storage (snd r) = output_storage st /\
  launches (snd r) = launches st.
Proof.
  intros Hcuda. cbv zeta.
  pose proof (marshal_inputs_no_output GPU ex (input_exprs u) ([], -1) st) as Hno.
  cbv zeta in Hno.
  destruct (marshal_inputs GPU ex (device_allocator_for GPU) (input_exprs u) ([], -1) st)
    as [[s | [bufs ec]] st1] eqn:Hmar.
  - destruct (execute_marshal_failed u cc GPU ex st s) as (Hs & Ho & Hl);
      [now rewrite Hmar |].
    split; [| auto]. exists s. split; [exact Hs |]. intros ? ? [=].
  - rewrite (execute_after_marshal u cc GPU ex st st1 bufs ec Hmar).
    unfold launcher. rewrite launchGpuCode_without_cuda by exact Hcuda.
    simpl in Hno.
    destruct (Nat.eqb_spec (length bufs) (length (input_exprs u))); simpl.
    + destruct (Z.ltb_spec ec 0); simpl.
      * split; [| auto]. eexists. split; [reflexivity |]. intros ? ? [= <- <-]. lia.
      * split; [| auto]. eexists. split; [reflexivity |]. auto.
    + split; [| auto]. eexists. split; [reflexivity |].
      intros ? ? [= <- <-]. contradiction.
Qed.

(** X10. End to end: when [execute] returns a result and the column
    counts fit [ssize_t], there is a column among the inputs, the value the
    sizing read as row multiplier (the declared multiplier whenever one is
    present) is not zero, and the storage was allocated with that value
    times the element count of every column among the inputs (they all
    have the same), in [size_t] arithmetic. *)
Theorem allocation_is_multiplier_times_column_count
    (u : TableFunctionExecutionUnit) (cc : TableFunctionCompilationContext)
    (dev : ExecutorDeviceType) (ex : Executor) (st st' : state) (rs : ResultSet) :
  execute u (Some cc) dev ex st = (inr rs, st') ->
  (forall column, In (ColumnVar column) (input_exprs u) ->
     0 <= getOneColumnFragment ex column (memory_level_of dev) < 2 ^ 63) ->
  multiplier_as_read u <> 0 /\
  (forall m, output_buffer_multiplier u = Some m -> multiplier_as_read u = m) /\
  (exists column, In (ColumnVar column) (input_exprs u)) /\
  forall column, In (ColumnVar column) (input_exprs u) ->
    rs_allocated_rows rs
      = (multiplier_as_read u * getOneColumnFragment ex column (memory_level_of dev))
          mod 2 ^ 64.
Proof.
  intros H Hfit.
  destruct (marshal_inputs dev ex (device_allocator_for dev) (input_exprs u) ([], -1) st)
    as [[s | [bufs ec]] st1] eqn:Hmar.
  - destruct (execute_marshal_failed u cc dev ex st s) as (Hs & _);
      [now rewrite Hmar |]. rewrite H in Hs. discriminate.
  - rewrite (execute_after_marshal u cc dev ex st st1 bufs ec Hmar) in H.
    destruct (negb (Nat.eqb (length bufs) (length (input_exprs u)))); [discriminate |].
    destruct (Z.ltb_spec ec 0); [discriminate |].
    destruct (launcher_returned dev u cc bufs (to_size_t ec) ex st1 st' rs H)
      as (Hnz & _ & _ & Ha & _).
    assert (Hok : fst (marshal_inputs dev ex (device_allocator_for dev)
                                      (input_exprs u) ([], -1) st) = inr (bufs, ec))
      by now rewrite Hmar.
    assert (Hall : Forall (marshalable dev ex) (input_exprs u)).
    { apply Forall_forall. intros [column | ti d |] He; simpl; auto.
      apply (marshal_inputs_completed_supported dev ex (input_exprs u)
               ([], -1) (bufs, ec) st Hok ti d He). }
    destruct (marshal_inputs_columns_agree dev ex (input_exprs u) [] bufs (-1) ec st
                Hall Hok) as (_ & Hcols).
    split; [exact Hnz |]. split; [apply multiplier_as_read_present |]. split.
    + destruct (forallb (fun e => negb (is_column e)) (input_exprs u)) eqn:Hnc.
      * pose proof (marshal_inputs_no_column dev ex (input_exprs u) [] bufs (-1) ec st
                      Hnc Hok). lia.
      * clear - Hnc. induction (input_exprs u) as [| e l IH]; [discriminate |].
        simpl in Hnc. destruct e as [column | |]; simpl in Hnc.
        -- exists column. now left.
        -- destruct (IH Hnc) as (c & Hc). exists c. now right.
        -- destruct (IH Hnc) as (c & Hc). exists c. now right.
    + intros column Hin. rewrite Ha, (Hcols column Hin).
      specialize (Hfit column Hin). rewrite (Hcols column Hin) in Hfit.
      rewrite (to_size_t_small ec) by lia. reflexivity.
Qed.

(** ** When the marshaling completes, and when the invocation returns *)

Lemma marshal_inputs_completes (dev : ExecutorDeviceType) (ex : Executor)
    (l : list Expr) (bufs : list int8_ptr) (ec : Z) (st : state) :
  Forall (marshalable dev ex) l ->
  (forall a b, In (ColumnVar a) l -> In (ColumnVar b) l ->
     getOneColumnFragment ex a (memory_level_of dev)
       = getOneColumnFragment ex b (memory_level_of dev)) ->
  (0 <= ec -> forall c, In (ColumnVar c) l ->
     getOneColumnFragment ex c (memory_level_of dev) = ec) ->
  exists loop',
    fst (marshal_inputs dev ex (device_allocator_for dev) l (bufs, ec) st) = inr loop'.
Proof.
  revert bufs ec st. induction l as [| e l IH]; intros bufs ec st Hall Hagree Hec.
  - simpl. eauto.
  - rewrite marshal_inputs_cons. inversion Hall as [| ? ? He Hl]; subst.
    pose proof (marshal_input_cases dev ex bufs ec e st) as (_ & _ & Hc).
    destruct (marshal_input dev ex (device_allocator_for dev) (bufs, ec) e st)
      as [[s | [bufs1 ec1]] st1]; simpl in Hc.
    + exfalso. destruct e as [column | ti d |].
      * cbv zeta in Hc. simpl in He. rewrite (to_ssize_t_count _ He) in Hc.
        destruct (Z.ltb_spec ec 0); [discriminate |].
        rewrite (Hec ltac:(lia) column ltac:(now left)), Z.eqb_refl in Hc. discriminate.
      * simpl in He. rewrite He in Hc. destruct Hc as (p & Hc). discriminate.
      * discriminate.
    + apply IH; [exact Hl | intros a b Ha Hb; apply Hagree; now right |].
      intros Hec1 c Hc'. destruct e as [column | ti d |].
      * cbv zeta in Hc. simpl in He. rewrite (to_ssize_t_count _ He) in Hc.
        destruct (Z.ltb_spec ec 0).
        -- injection Hc as _ ->. apply Hagree; [now right | now left].
        -- destruct (_ =? ec); [| discriminate]. injection Hc as _ ->.
           apply Hec; [lia | now right].
      * rewrite He in Hc. destruct Hc as (p & Hc). injection Hc as _ ->.
        apply Hec; [lia | now right].
      * injection Hc as _ ->. apply Hec; [lia | now right].
Qed.

(** X11. Over inputs whose column counts fit [ssize_t], the marshaling
    loop of [execute] runs to completion exactly when every constant
    among them is of a supported type and all columns among them have the
    same element count. *)
Theorem marshaling_completes_iff_inputs_are_consistent
    (dev : ExecutorDeviceType) (ex : Executor) (l : list Expr) (st : state) :
  (forall column, In (ColumnVar column) l ->
     0 <= getOneColumnFragment ex column (memory_level_of dev) < 2 ^ 63) ->
  (exists loop',
     fst (marshal_inputs dev ex (device_allocator_for dev) l ([], -1) st) = inr loop')
  <->
  (forall ti d, In (Constant ti d) l -> supported_literal ti = true) /\
  (forall a b, In (ColumnVar a) l -> In (ColumnVar b) l ->
     getOneColumnFragment ex a (memory_level_of dev)
       = getOneColumnFragment ex b (memory_level_of dev)).
Proof.
  intros Hfit. split.
  - intros ([bufs ec] & H).
    assert (Hsup : forall ti d, In (Constant ti d) l -> supported_literal ti = true)
      by exact (marshal_inputs_completed_supported dev ex l ([], -1) (bufs, ec) st H).
    split; [exact Hsup |].
    assert (Hall : Forall (marshalable dev ex) l).
    { apply Forall_forall. intros [column | ti d |] He; simpl; eauto. }
    destruct (marshal_inputs_columns_agree dev ex l [] bufs (-1) ec st Hall H)
      as (_ & Hcols).
    intros a b Ha Hb. now rewrite (Hcols a Ha), (Hcols b Hb).
  - intros (Hsup & Hagree).
    apply marshal_inputs_completes; [| exact Hagree | lia].
    apply Forall_forall. intros [column | ti d |] He; simpl; eauto.
Qed.


(** X13. The inputs are handled in order and the first offender decides:
    when the inputs before a constant of unsupported type marshal, the
    invocation stops at that constant, with UnsupportedLiteralType for a
    constant that is neither floating point nor integer and in
    [UNREACHABLE()] for one of an unexpected width, whatever follows it;
    nothing after it is fetched or packed, no output storage is allocated
    and nothing is launched. *)
Theorem first_unsupported_constant_stops_the_invocation
    (u : TableFunctionExecutionUnit) (cc : TableFunctionCompilationContext)
    (dev : ExecutorDeviceType) (ex : Executor) (st : state)
    (l post : list Expr) (ti : SQLTypeInfo) (d : Datum) :
  input_exprs u = l ++ Constant ti d :: post ->
  supported_literal ti = false ->
  Forall (marshalable dev ex) l ->
  (forall a b, In (ColumnVar a) l -> In (ColumnVar b) l ->
     getOneColumnFragment ex a (memory_level_of dev)
       = getOneColumnFragment ex b (memory_level_of dev)) ->
  let r := execute u (Some cc) dev ex st in
  fst r = inl (if is_fp ti || is_integer ti then Unreachable
               else Thrown (UnsupportedLiteralType d)) /\
  chunks_owner (snd r) = chunks_owner st ++ columns_of l /\
  output_storage (snd r) = output_storage st /\
  launches (snd r) = launches st.
Proof.
  intros Hin Hs Hall Hagree. cbv zeta.
  destruct (marshal_inputs_completes dev ex l [] (-1) st Hall Hagree ltac:(lia))
    as ([bufs ec] & Hok).
  destruct (marshal_inputs dev ex (device_allocator_for dev) l ([], -1) st)
    as [[s | loop1] st1] eqn:Hl; simpl in Hok; [discriminate |].
  injection Hok as ->.
  destruct (marshal_inputs_pushes dev ex l [] bufs (-1) ec st st1 Hl) as (_ & Hch & _).
  assert (Hmar : marshal_inputs dev ex (device_allocator_for dev) (input_exprs u)
                                ([], -1) st
                 = (inl (if is_fp ti || is_integer ti then Unreachable
                         else Thrown (UnsupportedLiteralType d)), st1)).
  { rewrite Hin, marshal_inputs_app, Hl, marshal_inputs_cons.
    unfold marshal_input, bind.
    now rewrite (marshal_constant_unsupported ti d dev ex _ st1 Hs). }
  destruct (execute_marshal_failed u cc dev ex st _ ltac:(now rewrite Hmar))
    as (Hr & Ho & Hla).
  split; [exact Hr |]. split; [| auto].
  unfold execute, bind. rewrite Hmar. exact Hch.
Qed.

(* ================================================================== *)
(** * The further properties at concrete inputs *)

Import MoreExamples.

(** A tinyint packed after an int on CPU: the new slot is slot 1, slot 0
    keeps its bytes. *)
Lemma literal_buffer_is_fresh_witness :
  let st := snd (run (create_literal_buffer t_int32 7 CPU executor false)) in
  let st' := snd (create_literal_buffer t_int8 (-1) CPU executor false st) in
  ~ live st (host_literal 1) /\ live st' (host_literal 1) /\
  resident CPU (host_literal 1) /\
  keeps_buffers st st' /\
  chunks_owner st' = chunks_owner st /\
  device_memory st' = device_memory st /\
  length (literals_owner st') = S (length (literals_owner st)).
Proof.
  apply (literal_buffer_is_fresh_and_disturbs_nothing t_int8 (-1) CPU executor false
           (snd (run (create_literal_buffer t_int32 7 CPU executor false)))).
  reflexivity.
Defined.


(** A function returning the code 3 without setting the row count. *)
Lemma cpu_return_code_is_surfaced_first_witness :
  let u := unit_of [ColumnVar 0] (Some 2) in
  let r := launchCpuCode u (compiled (fails_with 3)) [chunk_buffer 0 CPU_LEVEL] 4
                         executor initial_state in
  fst r = inl (Thrown (TableFunctionExecutionError (to_int32 3))) /\
  exists allocated, output_storage (snd r) = output_storage initial_state ++ [(CPU, allocated)].
Proof.
  apply (cpu_return_code_is_surfaced_first
           (unit_of [ColumnVar 0] (Some 2)) (compiled (fails_with 3))
           [chunk_buffer 0 CPU_LEVEL] 4 executor initial_state 3 (-1)).
  - reflexivity.
  - reflexivity.
  - vm_compute. discriminate.
Defined.

(** A launch the driver rejects with the code 700. *)
Lemma gpu_launch_result_is_checked_witness :
  fst (launchGpuCode (unit_of [ColumnVar 0] (Some 2)) (compiled (fails_with 700))
                     [chunk_buffer 0 GPU_LEVEL] 4 0 executor initial_state)
    = inl (CheckFailed (KernelLaunchError 700)).
Proof.
  destruct (gpu_launch_result_is_checked
              (unit_of [ColumnVar 0] (Some 2)) (compiled (fails_with 700))
              [chunk_buffer 0 GPU_LEVEL] 4 executor initial_state (fails_with 700)
              700 (-1) eq_refl eq_refl eq_refl) as (Hrejected & _).
  apply Hrejected. lia.
Defined.

(** Four reported rows out of eight allocated, on CPU. *)
Lemma returned_result_shape_witness :
  let u := unit_of [ColumnVar 0] (Some 2) in
  let rs := mkResultSet CPU [(8, 8)] 8 4 in
  let st' := mkState [] [] [0%nat] [(CPU, 8)] [CPU] in
  rs_device rs = CPU /\
  rs_col_slots rs = repeat (8, 8) (length (target_exprs u)) /\
  output_storage st' = output_storage initial_state ++ [(CPU, rs_allocated_rows rs)] /\
  launches st' = launches initial_state ++ [CPU] /\
  0 <= rs_entry_count rs < 2 ^ 64.
Proof.
  apply (returned_result_shape
           (unit_of [ColumnVar 0] (Some 2)) (compiled (reports 4)) CPU executor
           initial_state (mkState [] [] [0%nat] [(CPU, 8)] [CPU])
           (mkResultSet CPU [(8, 8)] 8 4)).
  reflexivity.
Defined.

(** The error code 3 on CPU is among the listed stops. *)
Lemma execute_stops_only_as_listed_witness :
  may_stop_execute CPU (Thrown (TableFunctionExecutionError 3)) /\
  (Thrown (TableFunctionExecutionError 3) = CheckFailed NullCompilationContext
   <-> Some (compiled (fails_with 3)) = None).
Proof.
  apply (execute_stops_only_as_listed
           (unit_of [ColumnVar 0] (Some 2)) (Some (compiled (fails_with 3))) CPU executor
           initial_state).
  reflexivity.
Defined.

(** A GPU invocation in a build without CUDA. *)
Lemma gpu_invocation_without_cuda_witness :
  let u := unit_of [ColumnVar 0] (Some 2) in
  let r := execute u (Some (compiled (reports 4))) GPU cpu_only_executor initial_state in
  (exists s,
     fst r = inl s /\
     (forall bufs ec,
        fst (marshal_inputs GPU cpu_only_executor (device_allocator_for GPU)
                            (input_exprs u) ([], -1) initial_state) = inr (bufs, ec) ->
        length bufs = length (input_exprs u) -> 0 <= ec -> s = Unreachable)) /\
  output_storage (snd r) = output_storage initial_state /\
  launches (snd r) = launches initial_state.
Proof.
  apply (gpu_invocation_without_cuda_is_unreachable
           (unit_of [ColumnVar 0] (Some 2)) (compiled (reports 4)) cpu_only_executor
           initial_state).
  reflexivity.
Defined.

(** Multiplier 3 over two columns of four elements: 12 rows. *)
Lemma allocation_is_multiplier_times_column_count_witness :
  let u := unit_of [ColumnVar 0; ColumnVar 2] (Some 3) in
  multiplier_as_read u <> 0 /\
  (forall m, output_buffer_multiplier u = Some m -> multiplier_as_read u = m) /\
  (exists column, In (ColumnVar column) (input_exprs u)) /\
  forall column, In (ColumnVar column) (input_exprs u) ->
    12 = (multiplier_as_read u
          * getOneColumnFragment uniform_executor column (memory_level_of CPU))
           mod 2 ^ 64.
Proof.
  apply (allocation_is_multiplier_times_column_count
           (unit_of [ColumnVar 0; ColumnVar 2] (Some 3)) (compiled (reports 4)) CPU
           uniform_executor initial_state
           (mkState [] [] [0%nat; 2%nat] [(CPU, 12)] [CPU])
           (mkResultSet CPU [(8, 8)] 12 4)).
  - reflexivity.
  - intros column _. simpl. lia.
Defined.

(** The mixed inputs marshal: the constants are supported, the only
    column agrees with itself. *)
Lemma marshaling_completes_witness :
  (exists loop',
     fst (marshal_inputs CPU uniform_executor (device_allocator_for CPU) mixed_inputs
                         ([], -1) initial_state) = inr loop')
  <->
  (forall ti d, In (Constant ti d) mixed_inputs -> supported_literal ti = true) /\
  (forall a b, In (ColumnVar a) mixed_inputs -> In (ColumnVar b) mixed_inputs ->
     getOneColumnFragment uniform_executor a (memory_level_of CPU)
       = getOneColumnFragment uniform_executor b (memory_level_of CPU)).
Proof.
  apply (marshaling_completes_iff_inputs_are_consistent
           CPU uniform_executor mixed_inputs initial_state).
  intros column _. simpl. lia.
Defined.


(** A text constant between two columns: the second column is never
    fetched. *)
Lemma first_unsupported_constant_witness :
  let u := unit_of [ColumnVar 0; Constant ti_text (mkDatum 7); ColumnVar 1] (Some 2) in
  let r := execute u (Some (compiled (reports 4))) CPU uniform_executor initial_state in
  fst r = inl (if is_fp ti_text || is_integer ti_text then Unreachable
               else Thrown (UnsupportedLiteralType (mkDatum 7))) /\
  chunks_owner (snd r) = chunks_owner initial_state ++ columns_of [ColumnVar 0] /\
  output_storage (snd r) = output_storage initial_state /\
  launches (snd r) = launches initial_state.
Proof.
  apply (first_unsupported_constant_stops_the_invocation
           (unit_of [ColumnVar 0; Constant ti_text (mkDatum 7); ColumnVar 1] (Some 2))
           (compiled (reports 4)) CPU uniform_executor initial_state
           [ColumnVar 0] [ColumnVar 1] ti_text (mkDatum 7)).
  - reflexivity.
  - reflexivity.
  - repeat constructor; simpl; lia.
  - intros a b _ _. reflexivity.
Defined.

(** An empty column establishes the element count: the invocation
    passes the check for column inputs, allocates no rows and still calls
    the compiled code. *)
Example empty_column_is_still_processed :
  let empty := mkExecutor (fun _ _ => 0) (fun _ _ => 0) true true in
  let r := run (execute (unit_of [ColumnVar 0] (Some 2)) (Some (compiled (reports 0)))
                        CPU empty) in
  fst r = inr (mkResultSet CPU [(8, 8)] 0 0) /\ launches (snd r) = [CPU].
Proof. repeat split. Qed.

(** When the output initializer hands back no buffers, the launcher stops
    at its check after the storage has been allocated and before the
    compiled code is called. *)
Example missing_output_buffers_stop_the_launch :
  let r := run (execute (unit_of [ColumnVar 0] (Some 2)) (Some (compiled (reports 4)))
                        CPU bufferless_executor) in
  fst r = inl (CheckFailed NullGroupByBuffers) /\
  output_storage (snd r) = [(CPU, 8)] /\ launches (snd r) = [].
Proof. repeat split. Qed.
